(** * Energy-market ETL client: extraction and resilience core

    Shallow embedding of [etl_client/auth/token_manager.py],
    [etl_client/extractors/base.py], [etl_client/health/checker.py] and
    [ETLPipeline.run_etl_cycle] of [etl_client/main.py].

    Conventions.
    - Instants ([time.time()], [acquired_at]) are rationals [Q]: the float
      arithmetic of the source is read as exact arithmetic.
    - A Python exception is an [Err] value; the effectful collaborators
      (HTTP server, clock, database) are oracles passed as arguments.
    - Logging calls are not part of the modelled state. *)

From Stdlib Require Import ZArith QArith Qabs Qpower List String Bool Lia Lqa.
Import ListNotations.
Open Scope string_scope.
Open Scope Z_scope.

(** ** Python-level helpers *)

(** [x or default] for an optional integer argument: [None] and [0] are
    both falsy. *)
Definition py_or_Z (x : option Z) (default : Z) : Z :=
  match x with
  | Some v => if Z.eqb v 0 then default else v
  | None => default
  end.

(** [x or default] for an optional float argument. *)
Definition py_or_Q (x : option Q) (default : Q) : Q :=
  match x with
  | Some v => if Qeq_bool v 0 then default else v
  | None => default
  end.

(** [range(n)] length. *)
Definition py_range_len (n : Z) : nat := Z.to_nat n.

(** ** Settings ([etl_client/config.py]) *)

Record Settings := mkSettings {
  token_refresh_margin_seconds : Z;
  etl_max_retries : Z;
  etl_retry_delay_seconds : Q
}.

Definition default_settings : Settings :=
  {| token_refresh_margin_seconds := 300;
     etl_max_retries := 3;
     etl_retry_delay_seconds := 5 # 1 |}.

(** ** Errors raised through the extraction path *)

(** [httpx.HTTPStatusError], [httpx.RequestError], and any other exception
    (e.g. a JSON decoding error or a missing key). *)
Inductive py_error :=
| HTTPStatusError (status_code : Z) (msg : string)
| RequestError (msg : string)
| OtherError (msg : string).

Inductive result (A : Type) :=
| Ok (a : A)
| Err (e : py_error).
Arguments Ok {A} a.
Arguments Err {A} e.

(** ** Token manager ([etl_client/auth/token_manager.py]) *)
Module TokenManager.

Record Token := mkToken {
  access_token : string;
  token_type : string;
  expires_in : Z;
  acquired_at : Q
}.

(** [Token.expires_at] *)
Definition expires_at (t : Token) : Q := acquired_at t + inject_Z (expires_in t).

(** [Token.is_expired]: [time.time() >= self.expires_at - margin_seconds]. *)
Definition is_expired (t : Token) (margin_seconds : Z) (now : Q) : bool :=
  Qle_bool (expires_at t - inject_Z margin_seconds) now.

(** What the [/oauth/token] endpoint answers to the n-th acquisition:
    a parsed body together with the clock reading taken after parsing,
    or a raised error. *)
Inductive acq_response :=
| AcqOk (access : string) (ttype : string) (lifetime : Z) (clock_after : Q)
| AcqFail (e : py_error).

(** Manager state: the cached [_token], and the number of POSTs sent to
    the token endpoint so far (network acquisitions). *)
Record state := mkState {
  tm_token : option Token;
  tm_acquisitions : nat
}.

Definition init : state := {| tm_token := None; tm_acquisitions := 0 |}.

(** [_acquire_token]: one POST, then a [Token] built from the body. *)
Definition acquire_token (net : nat -> acq_response) (s : state)
  : result Token * state :=
  let s' := {| tm_token := tm_token s; tm_acquisitions := S (tm_acquisitions s) |} in
  match net (tm_acquisitions s) with
  | AcqOk a ty life clk => (Ok (mkToken a ty life clk), s')
  | AcqFail e => (Err e, s')
  end.

(** Store a freshly acquired token: [self._token = await self._acquire_token()]. *)
Definition refresh (net : nat -> acq_response) (s : state) : result string * state :=
  match acquire_token net s with
  | (Ok t, s') => (Ok (access_token t),
                   {| tm_token := Some t; tm_acquisitions := tm_acquisitions s' |})
  | (Err e, s') => (Err e, s')
  end.

(** [get_token]: refresh when there is no token or it [is_expired(margin)]. *)
Definition get_token (st : Settings) (net : nat -> acq_response) (now : Q)
  (s : state) : result string * state :=
  let margin := token_refresh_margin_seconds st in
  match tm_token s with
  | None => refresh net s
  | Some t => if is_expired t margin now then refresh net s
              else (Ok (access_token t), s)
  end.

(** [invalidate_token]: [self._token = None]. *)
Definition invalidate_token (s : state) : state :=
  {| tm_token := None; tm_acquisitions := tm_acquisitions s |}.

End TokenManager.

(** ** Extractors ([etl_client/extractors/base.py]) *)
Module Extractor.
Import TokenManager.

(** A decoded JSON body. *)
#[local] Set Warnings "-register-all".
Inductive json :=
| JNull
| JBool (b : bool)
| JNum (q : Q)
| JStr (s : string)
| JArr (l : list json)
| JObj (l : list (string * json)).

(** Python truthiness of a decoded body ([if data:]). *)
Definition truthy (j : json) : bool :=
  match j with
  | JNull => false
  | JBool b => b
  | JNum q => negb (Qeq_bool q 0)
  | JStr s => negb (String.eqb s "")
  | JArr l => negb (Nat.eqb (List.length l) 0)
  | JObj l => negb (Nat.eqb (List.length l) 0)
  end.

(** The [health_metrics] dict. *)
Record health_metrics := mkHM {
  hm_endpoint : string;
  hm_status_code : option Z;
  hm_response_time_ms : option Z;
  hm_success : bool;
  hm_error_message : option string
}.

(** What the data endpoint does with one GET: a response (status code,
    elapsed milliseconds, body decoded or [None] when it is not JSON, and
    the text of the [HTTPStatusError] [raise_for_status] would build), or
    a transport failure. *)
Inductive http_response :=
| Response (status_code : Z) (elapsed_ms : Z) (body : option json) (reason : string)
| NoResponse (msg : string) (elapsed_ms : Z).

(** [response.raise_for_status()] raises unless the status is 2xx. *)
Definition is_success (code : Z) : bool := (200 <=? code) && (code <? 300).

(** Observable actions of [extract] on the network and the token manager
    (token acquisitions are counted by the manager itself). *)
Inductive ext_event :=
| EvRequest
| EvInvalidate.

(** [BaseExtractor.extract]: headers first (outside the [try]), then one
    GET; a 401 invalidates the shared token before re-raising. *)
Definition extract (st : Settings) (net : nat -> acq_response) (now : Q)
  (endpoint : string) (resp : http_response) (tm : TokenManager.state)
  : result (json * health_metrics) * TokenManager.state * list ext_event :=
  match get_token st net now tm with
  | (Err e, tm1) => (Err e, tm1, [])
  | (Ok _, tm1) =>
    match resp with
    | NoResponse msg _ => (Err (RequestError msg), tm1, [EvRequest])
    | Response code elapsed body reason =>
      if is_success code then
        match body with
        | Some data =>
          (Ok (data, mkHM endpoint (Some code) (Some elapsed) true None), tm1, [EvRequest])
        | None => (Err (OtherError "JSONDecodeError"), tm1, [EvRequest])
        end
      else if Z.eqb code 401 then
        (Err (HTTPStatusError code reason), invalidate_token tm1, [EvRequest; EvInvalidate])
      else (Err (HTTPStatusError code reason), tm1, [EvRequest])
    end
  end.

(** [str(e)] *)
Definition py_error_str (e : py_error) : string :=
  match e with
  | HTTPStatusError _ m | RequestError m | OtherError m => m
  end.

(** The dict built in the [except] clause of [extract_with_retry]:
    [getattr(getattr(e, 'response', None), 'status_code', None)] is the
    status of an [HTTPStatusError] and [None] for a [RequestError]. *)
Definition failure_record (endpoint : string) (e : py_error) : health_metrics :=
  mkHM endpoint
       (match e with HTTPStatusError c _ => Some c | _ => None end)
       None false (Some (py_error_str e)).

(** [except (httpx.HTTPStatusError, httpx.RequestError)] *)
Definition caught (e : py_error) : bool :=
  match e with
  | HTTPStatusError _ _ | RequestError _ => true
  | OtherError _ => false
  end.

Inductive retry_event :=
| EvAttempt
| EvSleep (seconds : Q).

Section Retry.
(** The extraction step, over whatever state it threads (token manager,
    endpoint behaviour, ...). *)
Variable St : Type.
Variable endpoint : string.
Variable step : St -> result (json * health_metrics) * St.

(** The [for attempt in range(max_retries + 1)] loop; [fuel] counts the
    iterations left, [last] is [last_health_metrics]. *)
Fixpoint retry_loop (max_retries : Z) (retry_delay : Q) (attempt : nat)
  (fuel : nat) (last : option health_metrics) (s : St)
  : result (option json * option health_metrics) * St * list retry_event :=
  match fuel with
  | O => (Ok (None, last), s, [])
  | S fuel' =>
    match step s with
    | (Ok (data, h), s1) => (Ok (Some data, Some h), s1, [EvAttempt])
    | (Err e, s1) =>
      if caught e then
        let h := failure_record endpoint e in
        let sleeps :=
          if Z.ltb (Z.of_nat attempt) max_retries
          then [EvSleep (retry_delay * inject_Z (2 ^ Z.of_nat attempt))]
          else [] in
        let '(r, s2, tr) :=
          retry_loop max_retries retry_delay (S attempt) fuel' (Some h) s1 in
        (r, s2, EvAttempt :: (sleeps ++ tr)%list)
      else (Err e, s1, [EvAttempt])
    end
  end.

(** [BaseExtractor.extract_with_retry]. *)
Definition extract_with_retry (st : Settings) (max_retries : option Z)
  (retry_delay : option Q) (s : St)
  : result (option json * option health_metrics) * St * list retry_event :=
  let mr := py_or_Z max_retries (etl_max_retries st) in
  let rd := py_or_Q retry_delay (etl_retry_delay_seconds st) in
  retry_loop mr rd 0 (py_range_len (mr + 1)) None s.

End Retry.

(** An endpoint scripted attempt by attempt: the state is the number of
    attempts made so far. *)
Definition scripted (outcome : nat -> result (json * health_metrics)) (n : nat)
  : result (json * health_metrics) * nat :=
  (outcome n, S n).

(** The real extraction step of one extractor: the shared token manager,
    the data endpoint's n-th answer and the clock at the n-th attempt. *)
Definition live_step (st : Settings) (net : nat -> acq_response)
  (clock : nat -> Q) (endpoint : string) (answers : nat -> http_response)
  (s : TokenManager.state * nat)
  : result (json * health_metrics) * (TokenManager.state * nat) :=
  let '(tm, n) := s in
  let '(r, tm', _) := extract st net (clock n) endpoint (answers n) tm in
  (r, (tm', S n)).

Definition count_attempts (tr : list retry_event) : nat :=
  List.length (filter (fun ev => match ev with EvAttempt => true | _ => false end) tr).

Definition sleeps (tr : list retry_event) : list Q :=
  flat_map (fun ev => match ev with EvSleep d => [d] | _ => [] end) tr.

End Extractor.

(** ** Health checker ([etl_client/health/checker.py]) *)
Module Health.
Import Extractor.

(** [_metrics_buffer]: whatever [record_metric] was handed, in order
    ([extract_with_retry] hands [None] when its loop never ran). *)
Definition buffer := list (option health_metrics).

(** [record_metric]: append, then [metrics.get(...)] for the log line,
    which raises [AttributeError] on [None] after the append. *)
Definition record_metric (m : option health_metrics) (buf : buffer)
  : result unit * buffer :=
  (match m with
   | Some _ => Ok tt
   | None => Err (OtherError "AttributeError")
   end, (buf ++ [m])%list).

(** The database side of [self.loader.load_health_metrics(
    self.processor.transform_health_metrics(metrics))] for the i-th record
    of a flush: [Some n] when it returns [n] inserted rows (a row whose
    INSERT fails is logged by the loader and not counted), [None] when it
    raises (e.g. the connection cannot be opened). *)
Definition health_loader := nat -> option health_metrics -> option Z.

(** The [for metrics in self._metrics_buffer] loop, accumulating
    [total_inserted]; it also returns the records handed to the loader. *)
Fixpoint flush_loop (load : health_loader) (i : nat) (ms : buffer) (total : Z)
  : result Z * list (option health_metrics) :=
  match ms with
  | [] => (Ok total, [])
  | m :: rest =>
    match load i m with
    | None => (Err (OtherError "load_health_metrics raised"), [m])
    | Some inserted =>
      let '(r, handed) := flush_loop load (S i) rest (total + inserted) in
      (r, m :: handed)
    end
  end.

(** [flush_metrics]: the result, the buffer afterwards, and the records
    handed to the loader. [clear()] only runs after the whole loop. *)
Definition flush_metrics (load : health_loader) (buf : buffer)
  : result Z * buffer * list (option health_metrics) :=
  match buf with
  | [] => (Ok 0, buf, [])
  | _ :: _ =>
    match flush_loop load 0 buf 0 with
    | (Ok total, handed) => (Ok total, [], handed)
    | (Err e, handed) => (Err e, buf, handed)
    end
  end.

(** The integer nearest to [q], ties to the even one. *)
Definition round_half_even (q : Q) : Z :=
  let n := Qnum q in
  let d := Zpos (Qden q) in
  let fl := n / d in
  let r := n mod d in
  match Z.compare (2 * r) d with
  | Lt => fl
  | Gt => fl + 1
  | Eq => if Z.even fl then fl else fl + 1
  end.

(** Python's [round(x, 2)] on a float [x]: CPython rounds the exact binary
    value of [x] at the second decimal, ties to even, and returns the
    double nearest to that two-decimal number, which prints as it; the
    model keeps the two-decimal number. *)
Definition py_round2 (q : Q) : Q := Qred (round_half_even (q * 100) # 100).

Definition two : Q := 2 # 1.

(** The exponent [k] with [2 ^ k <= q < 2 ^ (k + 1)], for [q > 0]: the
    difference of the bit lengths of numerator and denominator, or one
    less. *)
Definition flog2 (q : Q) : Z :=
  let k := Z.log2 (Qnum q) - Z.log2 (Zpos (Qden q)) in
  if Qle_bool (Qpower two k) q then k else k - 1.

(** The IEEE binary64 double nearest to [q >= 0], ties to even: 53
    significant bits, the spacing [2 ^ (flog2 q - 52)], and no finer than
    the subnormal spacing [2 ^ -1074]. Only quotients in [0, 100] arise
    here, so no overflow. *)
Definition b64_round (q : Q) : Q :=
  if Qle_bool q 0 then 0%Q else
  let e := Z.max (flog2 q - 52) (-1074) in
  (inject_Z (round_half_even (q / Qpower two e)) * Qpower two e)%Q.

(** [a / b] on Python ints ([b > 0]): CPython's true division of ints is
    correctly rounded, the double nearest to the exact quotient. *)
Definition py_truediv (a b : Z) : Q := b64_round (inject_Z a / inject_Z b).

Record summary := mkSummary {
  total : Z;
  success : Z;
  failed : Z;
  success_rate : Q
}.

(** [sum(1 for m in self._metrics_buffer if m.get("success"))];
    [None.get] raises. *)
Fixpoint count_success (ms : buffer) : result Z :=
  match ms with
  | [] => Ok 0
  | None :: _ => Err (OtherError "AttributeError")
  | Some m :: rest =>
    match count_success rest with
    | Ok c => Ok ((if hm_success m then 1 else 0) + c)
    | Err e => Err e
    end
  end.

(** [get_summary]; it reads the buffer and returns it unchanged. *)
Definition get_summary (buf : buffer) : result summary * buffer :=
  match buf with
  | [] => (Ok (mkSummary 0 0 0 0), buf)
  | _ :: _ =>
    let tot := Z.of_nat (List.length buf) in
    match count_success buf with
    | Err e => (Err e, buf)
    | Ok succ =>
      (Ok (mkSummary tot succ (tot - succ)
             (if 0 <? tot then py_round2 (py_truediv (100 * succ) tot) else 0)),
       buf)
    end
  end.

End Health.

(** ** Orchestrator ([ETLPipeline.run_etl_cycle], [etl_client/main.py]) *)
Module Pipeline.
Import Extractor Health.

Inductive source := Prices | Plant | Signals.

Definition source_eqb (a b : source) : bool :=
  match a, b with
  | Prices, Prices | Plant, Plant | Signals, Signals => true
  | _, _ => false
  end.

(** [{"extracted": ..., "loaded": ...}] *)
Record source_result := mkResult { extracted : bool; loaded : Z }.

Definition not_run : source_result := mkResult false 0.

Record results := mkResults {
  r_prices : source_result;
  r_plant : source_result;
  r_signals : source_result
}.

Definition get_result (R : results) (src : source) : source_result :=
  match src with
  | Prices => r_prices R
  | Plant => r_plant R
  | Signals => r_signals R
  end.

Inductive cycle_event :=
| EvExtract (src : source)
| EvTransform (src : source)
| EvLoad (src : source)
| EvFlush.

Definition event_of (src : source) (ev : cycle_event) : bool :=
  match ev with
  | EvExtract s | EvTransform s | EvLoad s => source_eqb s src
  | EvFlush => false
  end.

Section Cycle.
(** [St] is the state the extractions share (the token manager and the
    endpoints); [Rows] is the transformer's DataFrame. *)
Variable St Rows : Type.

Record env := mkEnv {
  (** [self.extractors[src].extract_with_retry()] *)
  extract_src : source -> St -> result (option json * option health_metrics) * St;
  (** [transform_energy_prices] / [transform_plant_status] /
      [transform_control_signals]; [None] when it raises *)
  transform : source -> json -> option Rows;
  (** [load_energy_prices] / [load_plant_status] / [load_control_signals];
      [None] when it raises *)
  load : source -> Rows -> option Z;
  load_health : health_loader
}.

(** One [try: ... except Exception] block of [run_etl_cycle]. *)
Definition run_source (E : env) (src : source) (s : St) (buf : buffer)
  : source_result * St * buffer * list cycle_event :=
  match extract_src E src s with
  | (Err _, s1) => (not_run, s1, buf, [EvExtract src])
  | (Ok (data, health), s1) =>
    match record_metric health buf with
    | (Err _, buf1) => (not_run, s1, buf1, [EvExtract src])
    | (Ok _, buf1) =>
      match data with
      | Some d =>
        if truthy d then
          match transform E src d with
          | None => (not_run, s1, buf1, [EvExtract src; EvTransform src])
          | Some df =>
            match load E src df with
            | None => (not_run, s1, buf1, [EvExtract src; EvTransform src; EvLoad src])
            | Some n => (mkResult true n, s1, buf1, [EvExtract src; EvTransform src; EvLoad src])
            end
          end
        else (not_run, s1, buf1, [EvExtract src])
      | None => (not_run, s1, buf1, [EvExtract src])
      end
    end
  end.

(** [run_etl_cycle]: the three blocks in order, then [flush_metrics] and
    [get_summary] outside any [try]. *)
Definition run_etl_cycle (E : env) (s : St) (buf : buffer)
  : result results * St * buffer * list cycle_event :=
  let '(rp, s1, b1, t1) := run_source E Prices s buf in
  let '(rl, s2, b2, t2) := run_source E Plant s1 b1 in
  let '(rs, s3, b3, t3) := run_source E Signals s2 b2 in
  let tr := (t1 ++ t2 ++ t3 ++ [EvFlush])%list in
  match flush_metrics (load_health E) b3 with
  | (Err e, b4, _) => (Err e, s3, b4, tr)
  | (Ok _, b4, _) =>
    match get_summary b4 with
    | (Err e, b5) => (Err e, s3, b5, tr)
    | (Ok _, b5) => (Ok (mkResults rp rl rs), s3, b5, tr)
    end
  end.

Inductive broken_step := BreakTransform | BreakLoad.

(** The same environment, except that the transform (or the load) step of
    [src] raises on every input. *)
Definition break_source (E : env) (src : source) (which : broken_step) : env :=
  match which with
  | BreakTransform =>
    mkEnv (extract_src E)
          (fun s d => if source_eqb s src then None else transform E s d)
          (load E) (load_health E)
  | BreakLoad =>
    mkEnv (extract_src E) (transform E)
          (fun s df => if source_eqb s src then None else load E s df)
          (load_health E)
  end.

End Cycle.

End Pipeline.

(** ** Observations and fixtures used by the statements below *)
Module Observe.
Import TokenManager Extractor Health Pipeline.

(** The spec's refresh condition: no cached token, or
    [now >= expiry - margin]. *)
Definition refresh_due (st : Settings) (now : Q) (s : state) : Prop :=
  tm_token s = None \/
  exists t, tm_token s = Some t /\
    (expires_at t - inject_Z (token_refresh_margin_seconds st) <= now)%Q.

Definition count_invalidations (tr : list ext_event) : nat :=
  List.length (filter (fun ev => match ev with EvInvalidate => true | _ => false end) tr).

Section Steps.
Variable St : Type.
Variable step : St -> result (json * health_metrics) * St.

(** The state after [n] extraction attempts. *)
Fixpoint run_steps (n : nat) (s : St) : St :=
  match n with
  | O => s
  | S k => run_steps k (snd (step s))
  end.

Definition always_fails : Prop :=
  forall s, exists e s', step s = (Err e, s') /\ caught e = true.

End Steps.

Definition sum_counts (cnt : nat -> Z) (i n : nat) : Z :=
  fold_right Z.add 0 (map cnt (seq i n)).

Section Blocks.
Variable St : Type.

Definition rs_state (x : source_result * St * buffer * list cycle_event) : St :=
  let '(_, s, _, _) := x in s.
Definition rs_buf (x : source_result * St * buffer * list cycle_event) : buffer :=
  let '(_, _, b, _) := x in b.
Definition rs_trace (x : source_result * St * buffer * list cycle_event) : list cycle_event :=
  let '(_, _, _, t) := x in t.
Definition rs_result (x : source_result * St * buffer * list cycle_event) : source_result :=
  let '(r, _, _, _) := x in r.

End Blocks.
Arguments rs_state {St} x.
Arguments rs_buf {St} x.
Arguments rs_trace {St} x.
Arguments rs_result {St} x.

End Observe.

Module Fixtures.
Import TokenManager Extractor Health.

Definition tok : Token := mkToken "abc" "bearer" 3600 (1000 # 1).

Definition net1 (n : nat) : acq_response :=
  AcqOk (if Nat.eqb n 0 then "first" else "second") "bearer" 3600 (1000 # 1).

Definition ok_body : json := JArr [JNum 1].
Definition ok_hm : health_metrics := mkHM "/api/v1/energy/prices" (Some 200) (Some 12) true None.

(** Fails on attempts 1 and 2, succeeds on attempt 3. *)
Definition fail_fail_ok (n : nat) : result (json * health_metrics) :=
  match n with
  | 0%nat | 1%nat => Err (HTTPStatusError 503 "Server error")
  | _ => Ok (ok_body, ok_hm)
  end.

Definition always_down (n : nat) : result (json * health_metrics) :=
  Err (RequestError "connection refused").

Definition rec_ok : health_metrics := mkHM "/api/v1/energy/prices" (Some 200) (Some 10) true None.
Definition rec_bad : health_metrics := mkHM "/api/v1/plant/status" (Some 503) None false (Some "503").

(** The loader stores the first record and reports the second one's
    INSERT as failed (logged, counted 0). *)
Definition loader_one_failure : health_loader :=
  fun i _ => if Nat.eqb i 0 then Some 1 else Some 0.

End Fixtures.

(** ** HTTP client lifecycle ([TokenManager._get_client] / [close] and
    [BaseExtractor._get_client] / [close]: the same code in both classes) *)
Module Clients.

(** [self._client]: [None], or the [id]-th [httpx.AsyncClient] created by
    this owner, with its [is_closed] flag. *)
Inductive client :=
| NoClient
| Client (id : nat) (is_closed : bool).

(** The owner's [_client] field and the number of clients created so far. *)
Record owner := mkOwner { cl : client; created : nat }.

(** [_get_client]: create a client when there is none or it is closed. *)
Definition get_client (o : owner) : nat * owner :=
  match cl o with
  | Client id false => (id, o)
  | _ => (created o, mkOwner (Client (created o) false) (S (created o)))
  end.

(** [close]: [if self._client and not self._client.is_closed], [aclose()]
    (read as succeeding) and [self._client = None]. *)
Definition close (o : owner) : owner :=
  match cl o with
  | Client _ false => mkOwner NoClient (created o)
  | _ => o
  end.

End Clients.

(** ** [TokenManager.get_auth_headers] *)
Module Auth.
Import TokenManager.

Definition get_auth_headers (st : Settings) (net : nat -> acq_response) (now : Q)
  (s : state) : result (list (string * string)) * state :=
  match get_token st net now s with
  | (Ok token, s') => (Ok [("Authorization", "Bearer " ++ token)], s')
  | (Err e, s') => (Err e, s')
  end.

End Auth.

(** ** [PandasProcessor.transform_energy_prices]
    ([etl_client/transformers/pandas_processor.py]) *)
Module Transform.
Import Extractor.

Definition rbind {A B : Type} (r : result A) (f : A -> result B) : result B :=
  match r with
  | Ok a => f a
  | Err e => Err e
  end.

Local Notation "x <- r ;; f" := (rbind r (fun x => f))
  (at level 61, r at next level, right associativity).

(** The value a decoded JSON object holds for a key: [json.loads] keeps the
    last of duplicated keys. *)
Definition dict_lookup (l : list (string * json)) (k : string) : option json :=
  fold_left (fun acc kv => if String.eqb (fst kv) k then Some (snd kv) else acc) l None.

(** [d.get(k, default)]; [.get] on anything but a dict raises
    [AttributeError]. *)
Definition py_get (d : json) (k : string) (default : json) : result json :=
  match d with
  | JObj l => Ok (match dict_lookup l k with Some v => v | None => default end)
  | _ => Err (OtherError "AttributeError")
  end.

(** The distinct keys of a decoded object, in first-insertion order. *)
Fixpoint dict_keys_from (seen : list string) (l : list (string * json)) : list string :=
  match l with
  | [] => []
  | (k, _) :: rest =>
    if existsb (String.eqb k) seen then dict_keys_from seen rest
    else k :: dict_keys_from (k :: seen) rest
  end.

(** [for x in v]: a list yields its elements, a dict its keys, a string its
    one-character strings; [None], booleans and numbers raise [TypeError]. *)
Definition py_iter (v : json) : result (list json) :=
  match v with
  | JArr l => Ok l
  | JObj l => Ok (map JStr (dict_keys_from [] l))
  | JStr s => Ok (map (fun c => JStr (String c EmptyString)) (list_ascii_of_string s))
  | JNull | JBool _ | JNum _ => Err (OtherError "TypeError")
  end.

(** One row of the DataFrame. *)
Record price_row := mkPriceRow {
  publication_timestamp : json;
  start_timestamp : json;
  end_timestamp : json;
  tariff_type : string;
  tariff_name : string;
  unit_ : json;
  value : json
}.

Definition tariff_types : list string := ["grid"; "electricity"; "integrated"; "grid_usage"].

(** [for item in tariff_data: rows.append({...})] *)
Fixpoint rows_of_items (pub start_ts end_ts : json) (ttype : string) (items : list json)
  : result (list price_row) :=
  match items with
  | [] => Ok []
  | item :: rest =>
    u <- py_get item "unit" (JStr "CHF_kWh");;
    v <- py_get item "value" JNull;;
    rs <- rows_of_items pub start_ts end_ts ttype rest;;
    Ok (mkPriceRow pub start_ts end_ts ttype "home_dynamic" u v :: rs)
  end.

(** [for tariff_type in tariff_types: tariff_data = price_slot.get(tariff_type, [])] *)
Fixpoint rows_of_tariffs (pub start_ts end_ts slot : json) (ttypes : list string)
  : result (list price_row) :=
  match ttypes with
  | [] => Ok []
  | ttype :: rest =>
    td <- py_get slot ttype (JArr []);;
    items <- py_iter td;;
    r1 <- rows_of_items pub start_ts end_ts ttype items;;
    r2 <- rows_of_tariffs pub start_ts end_ts slot rest;;
    Ok (r1 ++ r2)%list
  end.

(** [for price_slot in prices] *)
Fixpoint rows_of_slots (pub : json) (slots : list json) : result (list price_row) :=
  match slots with
  | [] => Ok []
  | slot :: rest =>
    start_ts <- py_get slot "start_timestamp" JNull;;
    end_ts <- py_get slot "end_timestamp" JNull;;
    r1 <- rows_of_tariffs pub start_ts end_ts slot tariff_types;;
    r2 <- rows_of_slots pub rest;;
    Ok (r1 ++ r2)%list
  end.

(** [df[col] = converted]: the converted column replaces the row values. *)
Fixpoint set_column (upd : price_row -> json -> price_row) (rows : list price_row)
  (col : list json) : list price_row :=
  match rows, col with
  | r :: rs, c :: cs => upd r c :: set_column upd rs cs
  | _, _ => []
  end.

Definition set_publication (r : price_row) (v : json) : price_row :=
  mkPriceRow v (start_timestamp r) (end_timestamp r) (tariff_type r) (tariff_name r)
             (unit_ r) (value r).
Definition set_start (r : price_row) (v : json) : price_row :=
  mkPriceRow (publication_timestamp r) v (end_timestamp r) (tariff_type r) (tariff_name r)
             (unit_ r) (value r).
Definition set_end (r : price_row) (v : json) : price_row :=
  mkPriceRow (publication_timestamp r) (start_timestamp r) v (tariff_type r) (tariff_name r)
             (unit_ r) (value r).

Definition of_option {A : Type} (o : option A) : result A :=
  match o with
  | Some a => Ok a
  | None => Err (OtherError "DateParseError")
  end.

Section Prices.
(** [pd.to_datetime] on a whole column; [None] when it raises. *)
Variable to_datetime : list json -> option (list json).

Definition transform_energy_prices (data : json) : result (list price_row) :=
  pub <- py_get data "publication_timestamp" JNull;;
  prices <- py_get data "prices" (JArr []);;
  if negb (truthy prices) then Ok [] else
  slots <- py_iter prices;;
  rows <- rows_of_slots pub slots;;
  match rows with
  | [] => Ok []    (* [pd.DataFrame([])] has no columns to convert *)
  | _ :: _ =>
    c1 <- of_option (to_datetime (map publication_timestamp rows));;
    let rows1 := set_column set_publication rows c1 in
    c2 <- of_option (to_datetime (map start_timestamp rows1));;
    let rows2 := set_column set_start rows1 c2 in
    c3 <- of_option (to_datetime (map end_timestamp rows2));;
    Ok (set_column set_end rows2 c3)
  end.

End Prices.

(** The number of items the payload lists under one tariff type of a slot
    (0 when the entry cannot be iterated), per slot, and over the payload:
    the row count a one-row-per-item flattening gives. *)
Definition tariff_items (slot : json) (ttype : string) : nat :=
  match rbind (py_get slot ttype (JArr [])) py_iter with
  | Ok items => List.length items
  | Err _ => 0%nat
  end.

Definition slot_items (slot : json) : nat :=
  fold_right plus 0%nat (map (tariff_items slot) tariff_types).

Definition price_items (data : json) : nat :=
  match rbind (py_get data "prices" (JArr [])) py_iter with
  | Ok slots => fold_right plus 0%nat (map slot_items slots)
  | Err _ => 0%nat
  end.

End Transform.

(** ** [PostgresLoader] ([etl_client/loaders/postgres.py]) *)
Module Loader.
Import Extractor Health.

(** What the database does during one [load_*] call: whether
    [get_connection()] connects, whether the INSERT of the i-th row raises
    (for whatever reason, a missing column included), and whether
    [conn.commit()] and the closing of the cursor and connection go
    through. *)
Record db := mkDb {
  connect_ok : bool;
  execute_ok : nat -> bool;
  commit_ok : bool;
  close_ok : bool
}.

(** [inserted]: the rows whose [cur.execute] did not raise. *)
Definition count_executed (d : db) (n : nat) : nat :=
  List.length (filter (execute_ok d) (seq 0 n)).

(** [load_energy_prices], [load_plant_status], [load_control_signals] and
    [load_health_metrics] share this code: [if df.empty: return 0]; then
    one INSERT per row in its own [try/except] (failures logged), commit,
    return [inserted]. [None] when the call raises. *)
Definition load_rows {R : Type} (d : db) (rows : list R) : option Z :=
  match rows with
  | [] => Some 0
  | _ :: _ =>
    if connect_ok d then
      let inserted := Z.of_nat (count_executed d (List.length rows)) in
      if commit_ok d && close_ok d then Some inserted else None
    else None
  end.

(** [self.loader.load_health_metrics(self.processor.transform_health_metrics(m))]
    in [flush_metrics]: [pd.DataFrame([metrics])] always has one row; the
    i-th call of the flush meets the database as [dbs i]. *)
Definition health_loader_of_db (dbs : nat -> db) : health_loader :=
  fun i m => load_rows (dbs i) [m].

End Loader.

(** ** Entry points [run_once] and [run_scheduled] ([etl_client/main.py]) *)
Module Runner.
Import Extractor Health Pipeline.

Inductive run_event :=
| EvCycle
| EvPollSleep (seconds : Z)
| EvClose.

Inductive sched_outcome :=
| Running          (* still inside [while True] *)
| Raised (e : py_error)
| Returned.

Definition close_error : py_error := OtherError "close raised".

Section Run.
Variable St Rows : Type.

(** [run_once]: [probe] is what [loader.test_connection()] returns (it
    catches every exception itself); [closes] is false when
    [pipeline.close()] in the [finally] raises, its error then replacing the
    outcome. *)
Definition run_once (probe closes : bool) (E : env St Rows) (s : St) (buf : buffer)
  : result bool * St * buffer * list run_event :=
  let finish (r : result bool) (s' : St) (b' : buffer) (tr : list run_event) :=
    (if closes then r else Err close_error, s', b', (tr ++ [EvClose])%list) in
  if probe then
    match run_etl_cycle St Rows E s buf with
    | (Err e, s', b', _) => finish (Err e) s' b' [EvCycle]
    | (Ok _, s', b', _) => finish (Ok true) s' b' [EvCycle]
    end
  else finish (Ok false) s buf [].

(** The first [fuel] iterations of [while True: run_etl_cycle(); sleep(poll)]. *)
Fixpoint sched_loop (fuel : nat) (poll : Z) (E : env St Rows) (s : St) (buf : buffer)
  : sched_outcome * St * buffer * list run_event :=
  match fuel with
  | O => (Running, s, buf, [])
  | S fuel' =>
    match run_etl_cycle St Rows E s buf with
    | (Err e, s', b', _) => (Raised e, s', b', [EvCycle])
    | (Ok _, s', b', _) =>
      let '(o, s'', b'', tr) := sched_loop fuel' poll E s' b' in
      (o, s'', b'', EvCycle :: EvPollSleep poll :: tr)
    end
  end.

(** [run_scheduled], observed over its first [fuel] cycles of a run in
    which no [KeyboardInterrupt] or task cancellation arrives: the
    [except KeyboardInterrupt] exit is outside this model. *)
Definition run_scheduled (fuel : nat) (probe closes : bool) (poll : Z) (E : env St Rows)
  (s : St) (buf : buffer) : sched_outcome * St * buffer * list run_event :=
  let finish (o : sched_outcome) (s' : St) (b' : buffer) (tr : list run_event) :=
    (if closes then o else Raised close_error, s', b', (tr ++ [EvClose])%list) in
  if probe then
    match sched_loop fuel poll E s buf with
    | (Running, s', b', tr) => (Running, s', b', tr)
    | (o, s', b', tr) => finish o s' b' tr
    end
  else finish Returned s buf [].

End Run.

End Runner.

(** ** Fixtures for the entry points and the transformer *)
Module ExtraFixtures.
Import Extractor Health Pipeline Transform Fixtures.

(** Every source returns a one-element list; transforms and loads succeed;
    the health loader stores each record. *)
Definition env_ok : env nat unit :=
  mkEnv nat unit (fun _ n => (Ok (Some ok_body, Some ok_hm), S n))
        (fun _ _ => Some tt) (fun _ _ => Some 1) (fun _ _ => Some 1).

(** The same, with a database that refuses every health insert call. *)
Definition env_health_down : env nat unit :=
  mkEnv nat unit (fun _ n => (Ok (Some ok_body, Some ok_hm), S n))
        (fun _ _ => Some tt) (fun _ _ => Some 1) (fun _ _ => None).

Definition prices_sample : json :=
  JObj [("publication_timestamp", JStr "2025-01-01T00:00:00");
        ("prices", JArr [JObj [("start_timestamp", JStr "2025-01-01T00:00:00");
                               ("end_timestamp", JStr "2025-01-01T00:15:00");
                               ("grid", JArr [JObj [("value", JNum 1)];
                                              JObj [("unit", JStr "EUR_kWh"); ("value", JNum 2)]]);
                               ("integrated", JArr [JObj []])]])].

Definition prices_null_grid : json :=
  JObj [("prices", JArr [JObj [("start_timestamp", JStr "2025-01-01T00:00:00");
                               ("grid", JNull)]])].

End ExtraFixtures.

(** ** Token manager: examples *)
Module TokenExamples.
Import TokenManager Fixtures.

Example is_expired_before : is_expired tok 300 (4299 # 1) = false.
Proof. reflexivity. Qed.

Example is_expired_at_boundary : is_expired tok 300 (4300 # 1) = true.
Proof. reflexivity. Qed.

Example two_calls_one_acquisition :
  let '(r1, s1) := get_token default_settings net1 (1000 # 1) init in
  let '(r2, s2) := get_token default_settings net1 (2000 # 1) s1 in
  (r1, r2, tm_acquisitions s2) = (Ok "first", Ok "first", 1%nat).
Proof. reflexivity. Qed.

End TokenExamples.

(** ** Extractor and health examples *)
Module RetryExamples.
Import Extractor Health Fixtures.

Example backoff_1_2 :
  let '(r, n, tr) := extract_with_retry nat "/api/v1/energy/prices" (scripted fail_fail_ok)
                       default_settings (Some 2) (Some 1%Q) 0%nat in
  (r, n, sleeps tr) = (Ok (Some ok_body, Some ok_hm), 3%nat, [1; 2]%Q).
Proof. reflexivity. Qed.

Example zero_retries_is_default :
  let '(r, n, tr) := extract_with_retry nat "/x" (scripted always_down)
                       default_settings (Some 0) (Some 0%Q) 0%nat in
  (count_attempts tr, sleeps tr) = (4%nat, [5; 10; 20]%Q).
Proof. reflexivity. Qed.

Example summary_3_of_4 :
  let f := mkHM "/x" (Some 500) None false (Some "boom") in
  fst (get_summary [Some ok_hm; Some ok_hm; Some f; Some ok_hm])
  = Ok (mkSummary 4 3 1 75).
Proof. reflexivity. Qed.

Example round_third : py_round2 (100 # 3) = (3333 # 100)%Q.
Proof. reflexivity. Qed.

(** [round(100 * 1 / 4000, 2)]: the double nearest to 0.025 lies above it,
    so the rate is 0.03; [round(100 * 1 / 800, 2)]: 0.125 is a double, the
    tie goes to the even 0.12. *)
Example rate_1_of_4000 : py_round2 (py_truediv 100 4000) = (3 # 100)%Q.
Proof. vm_compute. reflexivity. Qed.

Example rate_1_of_800 : py_round2 (py_truediv 100 800) = (3 # 25)%Q.
Proof. vm_compute. reflexivity. Qed.

End RetryExamples.

(** ** Token manager: properties *)
Module TokenProofs.
Import TokenManager Observe.

Lemma refresh_counts (net : nat -> acq_response) (s : state) :
  tm_acquisitions (snd (refresh net s)) = S (tm_acquisitions s).
Proof.
  unfold refresh, acquire_token. destruct (net (tm_acquisitions s)); reflexivity.
Qed.

Lemma refresh_ok (net : nat -> acq_response) (s : state) a ty life clk :
  net (tm_acquisitions s) = AcqOk a ty life clk ->
  refresh net s = (Ok a, {| tm_token := Some (mkToken a ty life clk);
                            tm_acquisitions := S (tm_acquisitions s) |}).
Proof.
  intros H. unfold refresh, acquire_token. rewrite H. reflexivity.
Qed.

Lemma is_expired_true (t : Token) (margin : Z) (now : Q) :
  is_expired t margin now = true <->
  (acquired_at t + inject_Z (expires_in t) - inject_Z margin <= now)%Q.
Proof.
  unfold is_expired, expires_at. apply Qle_bool_iff.
Qed.

(** Claim C4: [is_expired(margin)] holds exactly when
    [now >= acquired_at + expires_in - margin]; at that very instant the
    token already counts as expired. *)
Theorem is_expired_inclusive (t : Token) (margin : Z) :
  (forall now : Q,
     is_expired t margin now = true <->
     (acquired_at t + inject_Z (expires_in t) - inject_Z margin <= now)%Q) /\
  is_expired t margin (acquired_at t + inject_Z (expires_in t) - inject_Z margin) = true.
Proof.
  split.
  - intros now. apply is_expired_true.
  - apply is_expired_true. apply Qle_refl.
Qed.

Lemma refresh_due_dec (st : Settings) (now : Q) (s : state) :
  {refresh_due st now s} + {~ refresh_due st now s}.
Proof.
  unfold refresh_due. destruct (tm_token s) as [t|] eqn:Ht.
  - destruct (Qlt_le_dec now (expires_at t - inject_Z (token_refresh_margin_seconds st)))
      as [Hlt|Hle].
    + right. intros [H|[t' [Ht' H]]]; [discriminate|].
      injection Ht' as <-. exact (Qlt_not_le _ _ Hlt H).
    + left. right. exists t. auto.
  - left. left. reflexivity.
Defined.

Lemma get_token_counts (st : Settings) (net : nat -> acq_response) (now : Q) (s : state) :
  (refresh_due st now s ->
     tm_acquisitions (snd (get_token st net now s)) = S (tm_acquisitions s)) /\
  (~ refresh_due st now s -> get_token st net now s = (
     match tm_token s with Some t => Ok (access_token t) | None => Ok "" end, s)).
Proof.
  unfold refresh_due, get_token.
  destruct (tm_token s) as [t|] eqn:Ht; split; intros H.
  - destruct (is_expired t _ now) eqn:He; [apply refresh_counts|].
    exfalso. destruct H as [H|[t' [Ht' Hle]]]; [discriminate|].
    injection Ht' as <-. unfold is_expired in He.
    apply Qle_bool_iff in Hle. rewrite Hle in He. discriminate.
  - destruct (is_expired t _ now) eqn:He; [|reflexivity].
    exfalso. apply H. right. exists t. split; [reflexivity|].
    unfold is_expired in He. apply Qle_bool_iff. exact He.
  - apply refresh_counts.
  - exfalso. apply H. left. reflexivity.
Qed.

(** Claim C5: [get_token] sends a token request exactly when no token is
    cached or [now >= expiry - margin]; hence two calls, the second one
    before the fresh token's refresh instant, make exactly one acquisition
    and return the same access value. *)
Theorem get_token_refresh_rule :
  (forall st net now s,
     (tm_acquisitions (snd (get_token st net now s)) = S (tm_acquisitions s) <->
      refresh_due st now s) /\
     (~ refresh_due st now s -> snd (get_token st net now s) = s)) /\
  (forall st net (t1 t2 : Q) s a ty life clk,
     refresh_due st t1 s ->
     net (tm_acquisitions s) = AcqOk a ty life clk ->
     (t2 < clk + inject_Z life - inject_Z (token_refresh_margin_seconds st))%Q ->
     let '(r1, s1) := get_token st net t1 s in
     let '(r2, s2) := get_token st net t2 s1 in
     tm_acquisitions s2 = S (tm_acquisitions s) /\ r1 = Ok a /\ r2 = Ok a).
Proof.
  split.
  - intros st net now s. destruct (get_token_counts st net now s) as [H1 H2].
    split; [split|].
    + intros Hc. destruct (refresh_due_dec st now s) as [Hd|Hd]; [exact Hd|].
      rewrite (H2 Hd) in Hc. simpl in Hc. lia.
    + exact H1.
    + intros Hd. rewrite (H2 Hd). reflexivity.
  - intros st net t1 t2 s a ty life clk Hdue Hnet Hwin.
    assert (Hg : get_token st net t1 s =
                 (Ok a, {| tm_token := Some (mkToken a ty life clk);
                           tm_acquisitions := S (tm_acquisitions s) |})).
    { unfold refresh_due in Hdue. unfold get_token.
      destruct (tm_token s) as [t|] eqn:Ht.
      - destruct Hdue as [Hn|[t' [Ht' Hle]]]; [discriminate|].
        injection Ht' as <-.
        assert (He : is_expired t (token_refresh_margin_seconds st) t1 = true)
          by (apply Qle_bool_iff; exact Hle).
        rewrite He. apply refresh_ok. exact Hnet.
      - apply refresh_ok. exact Hnet. }
    rewrite Hg.
    assert (He : is_expired (mkToken a ty life clk) (token_refresh_margin_seconds st) t2 = false).
    { unfold is_expired, expires_at. simpl.
      destruct (Qle_bool _ t2) eqn:Hb; [|reflexivity].
      apply Qle_bool_iff in Hb. exfalso. apply (Qlt_not_le _ _ Hwin). exact Hb. }
    unfold get_token. cbn -[is_expired]. rewrite He. simpl. auto.
Qed.

Lemma get_token_refresh_rule_witness :
  let '(r1, s1) := get_token default_settings Fixtures.net1 (1000 # 1) init in
  let '(r2, s2) := get_token default_settings Fixtures.net1 (2000 # 1) s1 in
  tm_acquisitions s2 = S (tm_acquisitions init) /\ r1 = Ok "first" /\ r2 = Ok "first".
Proof.
  apply (proj2 get_token_refresh_rule default_settings Fixtures.net1
           (1000 # 1) (2000 # 1) init "first" "bearer" 3600 (1000 # 1)).
  - left. reflexivity.
  - reflexivity.
  - reflexivity.
Defined.

(** Claim C6: [invalidate_token] empties the cache and sends nothing;
    applying it twice is applying it once; on an empty cache it changes
    nothing; and the next [get_token] always sends a token request,
    whatever the previous expiry state. *)
Theorem invalidate_token_spec :
  (forall s, tm_token (invalidate_token s) = None /\
             tm_acquisitions (invalidate_token s) = tm_acquisitions s) /\
  (forall s, invalidate_token (invalidate_token s) = invalidate_token s) /\
  (forall s, tm_token s = None -> invalidate_token s = s) /\
  (forall st net now s,
     tm_acquisitions (snd (get_token st net now (invalidate_token s))) =
     S (tm_acquisitions s)).
Proof.
  split; [|split; [|split]].
  - intros s. split; reflexivity.
  - intros s. reflexivity.
  - intros [tok n] H. simpl in H. subst tok. reflexivity.
  - intros st net now s. exact (refresh_counts net (invalidate_token s)).
Qed.

Lemma invalidate_token_spec_witness :
  tm_token init = None /\ invalidate_token init = init.
Proof.
  split; [reflexivity|].
  apply (proj1 (proj2 (proj2 invalidate_token_spec)) init). reflexivity.
Defined.

End TokenProofs.

(** ** Extractor: properties *)
Module ExtractorProofs.
Import TokenManager Extractor Observe.

(** Claim C7: once the request has been sent with valid headers, a 401
    answer makes [extract] invalidate the shared token exactly once, after
    the request, and then raise the [HTTPStatusError]; any other error
    status raises without invalidating, leaving the token state as
    [get_token] left it. *)
Theorem extract_401_invalidates_once
  (st : Settings) (net : nat -> acq_response) (now : Q) (endpoint : string)
  (tm tm1 : TokenManager.state) (bearer : string)
  (Hhdr : get_token st net now tm = (Ok bearer, tm1)) :
  (forall elapsed body reason,
     extract st net now endpoint (Response 401 elapsed body reason) tm =
       (Err (HTTPStatusError 401 reason), invalidate_token tm1, [EvRequest; EvInvalidate]) /\
     count_invalidations [EvRequest; EvInvalidate] = 1%nat) /\
  (forall code elapsed body reason,
     is_success code = false -> code <> 401 ->
     let '(r, tm2, tr) := extract st net now endpoint (Response code elapsed body reason) tm in
     r = Err (HTTPStatusError code reason) /\ tm2 = tm1 /\ count_invalidations tr = 0%nat).
Proof.
  split.
  - intros elapsed body reason. unfold extract. rewrite Hhdr. split; reflexivity.
  - intros code elapsed body reason Hs Hc. unfold extract. rewrite Hhdr, Hs.
    apply Z.eqb_neq in Hc. rewrite Hc. auto.
Qed.

Lemma extract_401_invalidates_once_witness :
  get_token default_settings Fixtures.net1 (1000 # 1) init =
    (Ok "first", {| tm_token := Some (mkToken "first" "bearer" 3600 (1000 # 1));
                    tm_acquisitions := 1 |}) /\
  extract default_settings Fixtures.net1 (1000 # 1) "/api/v1/plant/status"
          (Response 401 7 None "Client error '401 Unauthorized'") init =
    (Err (HTTPStatusError 401 "Client error '401 Unauthorized'"),
     {| tm_token := None; tm_acquisitions := 1 |}, [EvRequest; EvInvalidate]).
Proof.
  split; [reflexivity|].
  apply (proj1 (extract_401_invalidates_once default_settings Fixtures.net1 (1000 # 1)
           "/api/v1/plant/status" init
           {| tm_token := Some (mkToken "first" "bearer" 3600 (1000 # 1)); tm_acquisitions := 1 |}
           "first" eq_refl) 7 None "Client error '401 Unauthorized'").
Defined.

Section AllFail.
Variable St : Type.
Variable endpoint : string.
Variable step : St -> result (json * health_metrics) * St.

Lemma count_attempts_sleep_prefix (d : list retry_event) (tr : list retry_event) :
  Forall (fun ev => exists q, ev = EvSleep q) d ->
  count_attempts (EvAttempt :: (d ++ tr)%list) = S (count_attempts tr).
Proof.
  intros Hd. unfold count_attempts. simpl. f_equal.
  induction Hd as [|ev d' [q ->] _ IH]; simpl; [reflexivity|]. exact IH.
Qed.

Lemma sleep_prefix_shape (mr : Z) (rd : Q) (attempt : nat) :
  Forall (fun ev => exists q, ev = EvSleep q)
    (if Z.of_nat attempt <? mr then [EvSleep (rd * inject_Z (2 ^ Z.of_nat attempt))] else []).
Proof.
  destruct (Z.of_nat attempt <? mr); repeat constructor; eauto.
Qed.

Lemma retry_loop_S (mr : Z) (rd : Q) attempt fuel last s :
  retry_loop St endpoint step mr rd attempt (S fuel) last s =
  match step s with
  | (Ok (data, h), s1) => (Ok (Some data, Some h), s1, [EvAttempt])
  | (Err e, s1) =>
    if caught e then
      let h := failure_record endpoint e in
      let sleeps :=
        if Z.of_nat attempt <? mr
        then [EvSleep (rd * inject_Z (2 ^ Z.of_nat attempt))]
        else [] in
      let '(r, s2, tr) := retry_loop St endpoint step mr rd (S attempt) fuel (Some h) s1 in
      (r, s2, EvAttempt :: (sleeps ++ tr)%list)
    else (Err e, s1, [EvAttempt])
  end.
Proof. reflexivity. Qed.

Lemma retry_loop_all_fail (Hfail : always_fails St step) (mr : Z) (rd : Q) :
  forall fuel attempt last s,
    let '(r, s', tr) := retry_loop St endpoint step mr rd attempt (S fuel) last s in
    count_attempts tr = S fuel /\ s' = run_steps St step (S fuel) s /\
    (forall e s1, step (run_steps St step fuel s) = (Err e, s1) ->
                  r = Ok (None, Some (failure_record endpoint e))).
Proof.
  induction fuel as [|fuel IH]; intros attempt last s;
    destruct (Hfail s) as [e [s1 [Hs Hc]]];
    rewrite retry_loop_S, Hs, Hc.
  - cbn [retry_loop]. split; [|split].
    + rewrite count_attempts_sleep_prefix; [reflexivity|apply sleep_prefix_shape].
    + simpl. rewrite Hs. reflexivity.
    + simpl. intros e' s1' He'. rewrite Hs in He'. injection He' as <- _. reflexivity.
  - specialize (IH (S attempt) (Some (failure_record endpoint e)) s1).
    cbv zeta. destruct (retry_loop St endpoint step mr rd (S attempt) (S fuel) _ s1)
      as [[r s'] tr] eqn:Hl.
    destruct IH as [Hn [Hs' Hr]]. split; [|split].
    + rewrite count_attempts_sleep_prefix; [|apply sleep_prefix_shape]. rewrite Hn. reflexivity.
    + rewrite Hs'. simpl. rewrite Hs. reflexivity.
    + intros e' s1' He'. apply (Hr e' s1'). simpl in He'. rewrite Hs in He'. exact He'.
Qed.

End AllFail.

Lemma sleeps_cons_app (l tr : list retry_event) :
  sleeps (EvAttempt :: (l ++ tr)%list) = (sleeps l ++ sleeps tr)%list.
Proof. unfold sleeps. simpl. apply flat_map_app. Qed.

(** Every delay slept by the loop is [retry_delay * 2 ^ i] for some
    attempt index [i]. *)
Lemma retry_loop_sleep_shape (St : Type) (endpoint : string)
  (step : St -> result (json * health_metrics) * St) (mr : Z) (rd : Q) :
  forall fuel attempt last s d,
    In d (sleeps (snd (retry_loop St endpoint step mr rd attempt fuel last s))) ->
    exists i : nat, d = (rd * inject_Z (2 ^ Z.of_nat i))%Q.
Proof.
  induction fuel as [|fuel IH]; intros attempt last s d Hin; [contradiction|].
  rewrite retry_loop_S in Hin.
  destruct (step s) as [[[data h]|e] s1]; [contradiction|].
  destruct (caught e); [|contradiction].
  cbv zeta in Hin.
  specialize (IH (S attempt) (Some (failure_record endpoint e)) s1 d).
  destruct (retry_loop St endpoint step mr rd (S attempt) fuel _ s1) as [[r s2] tr].
  cbn [snd] in Hin, IH. rewrite sleeps_cons_app in Hin. apply in_app_or in Hin.
  destruct Hin as [Hin|Hin]; [|exact (IH Hin)].
  destruct (Z.of_nat attempt <? mr); simpl in Hin; [|contradiction].
  destruct Hin as [<-|[]]. exists attempt. reflexivity.
Qed.

(** While every attempt fails, the delays are
    [retry_delay * 2 ^ attempt] for the attempt indices below [max_retries]. *)
Lemma retry_loop_sleeps_geometric (St : Type) (endpoint : string)
  (step : St -> result (json * health_metrics) * St)
  (Hfail : always_fails St step) (mr : Z) (rd : Q) :
  forall fuel attempt last s,
    Z.of_nat (attempt + fuel) = mr ->
    sleeps (snd (retry_loop St endpoint step mr rd attempt (S fuel) last s)) =
    map (fun i => (rd * inject_Z (2 ^ Z.of_nat i))%Q) (seq attempt fuel).
Proof.
  induction fuel as [|fuel IH]; intros attempt last s Hm;
    rewrite retry_loop_S; destruct (Hfail s) as [e [s1 [Hs Hc]]]; rewrite Hs, Hc;
    cbv zeta.
  - replace (Z.of_nat attempt <? mr) with false by (symmetry; apply Z.ltb_ge; lia).
    simpl. reflexivity.
  - specialize (IH (S attempt) (Some (failure_record endpoint e)) s1 ltac:(lia)).
    destruct (retry_loop St endpoint step mr rd (S attempt) (S fuel) _ s1) as [[r s2] tr].
    cbn [snd] in IH |- *. rewrite sleeps_cons_app, IH.
    replace (Z.of_nat attempt <? mr) with true by (symmetry; apply Z.ltb_lt; lia).
    reflexivity.
Qed.

(** The all-failing part of claim C1 (amended): with a retry budget [m]
    passed explicitly and at least 1, or left to the configured default,
    an endpoint whose every
    attempt fails with an [HTTPStatusError] or a [RequestError] is tried
    exactly [m + 1] times; [extract_with_retry] then returns normally with
    no payload and the failure record built from the last attempt's error. *)
Theorem extract_with_retry_exhausts
  (St : Type) (endpoint : string) (step : St -> result (json * health_metrics) * St)
  (st : Settings) (mr : option Z) (rd : option Q) (s0 : St)
  (Hbudget : match mr with Some m => 1 <= m | None => 0 <= etl_max_retries st end)
  (Hfail : always_fails St step) :
  let m := match mr with Some m => m | None => etl_max_retries st end in
  let '(r, s', tr) := extract_with_retry St endpoint step st mr rd s0 in
  count_attempts tr = S (Z.to_nat m) /\
  s' = run_steps St step (S (Z.to_nat m)) s0 /\
  (forall e s1, step (run_steps St step (Z.to_nat m) s0) = (Err e, s1) ->
                r = Ok (None, Some (failure_record endpoint e))).
Proof.
  cbv zeta. unfold extract_with_retry.
  assert (Hm : py_or_Z mr (etl_max_retries st) =
               match mr with Some m => m | None => etl_max_retries st end).
  { destruct mr as [m|]; simpl; [|reflexivity].
    replace (m =? 0) with false by (symmetry; apply Z.eqb_neq; lia). reflexivity. }
  rewrite Hm.
  assert (Hpos : 0 <= match mr with Some m => m | None => etl_max_retries st end)
    by (destruct mr; lia).
  replace (py_range_len (match mr with Some m => m | None => etl_max_retries st end + 1))
    with (S (Z.to_nat (match mr with Some m => m | None => etl_max_retries st end)))
    by (unfold py_range_len; lia).
  apply retry_loop_all_fail. exact Hfail.
Qed.

Lemma always_down_fails : always_fails nat (scripted Fixtures.always_down).
Proof.
  intros n. exists (RequestError "connection refused"), (S n). split; reflexivity.
Qed.

Lemma extract_with_retry_exhausts_witness :
  let '(r, s', tr) := extract_with_retry nat "/x" (scripted Fixtures.always_down)
                        default_settings (Some 2) None 0%nat in
  count_attempts tr = 3%nat /\
  s' = run_steps nat (scripted Fixtures.always_down) 3 0%nat /\
  (forall e s1, scripted Fixtures.always_down
                  (run_steps nat (scripted Fixtures.always_down) 2 0%nat) = (Err e, s1) ->
                r = Ok (None, Some (failure_record "/x" e))).
Proof.
  exact (extract_with_retry_exhausts nat "/x" (scripted Fixtures.always_down)
           default_settings (Some 2) None 0%nat ltac:(simpl; lia) always_down_fails).
Defined.

(** Claim C1 refuted as stated: an endpoint that answers 200 with a body
    that is not JSON fails on every attempt, yet [extract_with_retry]
    (budget 1) makes a single attempt and raises the decoding error. *)
Lemma extract_with_retry_raises_on_bad_body :
  let step := live_step default_settings Fixtures.net1 (fun _ => 1000 # 1)
                "/api/v1/energy/prices" (fun _ => Response 200 15 None "") in
  let '(r, _, tr) := extract_with_retry _ "/api/v1/energy/prices" step
                       default_settings (Some 1) None (init, 0%nat) in
  r = Err (OtherError "JSONDecodeError") /\ count_attempts tr = 1%nat.
Proof. vm_compute. split; reflexivity. Qed.

(** Claim C8, at the failing input: [max_retries=2], an explicit
    [retry_delay=0], an endpoint failing on attempts 1 and 2 and
    succeeding on attempt 3. The payload is returned, but the delays
    slept are 5s then 10s (the configured base delay), not [0 * 2 ^ i]. *)
Theorem backoff_with_zero_base_delay :
  let '(r, n, tr) := extract_with_retry nat "/api/v1/energy/prices"
                       (scripted Fixtures.fail_fail_ok)
                       default_settings (Some 2) (Some 0%Q) 0%nat in
  r = Ok (Some Fixtures.ok_body, Some Fixtures.ok_hm) /\
  n = 3%nat /\ sleeps tr = [5 # 1; 10 # 1]%Q.
Proof. vm_compute. auto. Qed.

Lemma py_or_Z_default_nonzero (mr : option Z) : py_or_Z mr 3 <> 0.
Proof.
  destruct mr as [v|]; simpl; [|discriminate].
  destruct (Z.eqb_spec v 0); [discriminate|assumption].
Qed.

Lemma py_or_Q_default_nonzero (rd : option Q) : ~ (py_or_Q rd (5 # 1) == 0)%Q.
Proof.
  destruct rd as [v|]; simpl; [|discriminate].
  destruct (Qeq_bool v 0) eqn:H; [discriminate|].
  intros Hv. apply Qeq_bool_iff in Hv. congruence.
Qed.

Lemma pow2_Q_nonzero (i : nat) : ~ (inject_Z (2 ^ Z.of_nat i) == 0)%Q.
Proof.
  unfold Qeq. simpl. rewrite Z.mul_1_r.
  pose proof (Z.pow_pos_nonneg 2 (Z.of_nat i)). lia.
Qed.

(** Claim C10: with the configured defaults (3 retries, 5 seconds), an
    explicit [max_retries=0] or [retry_delay=0] behaves exactly as the
    argument left out; so through these arguments a permanently failing
    endpoint is never tried exactly once, and no delay slept is 0. *)
Theorem zero_arguments_mean_defaults :
  (forall St endpoint step s,
     extract_with_retry St endpoint step default_settings (Some 0) (Some 0%Q) s =
     retry_loop St endpoint step 3 (5 # 1) 0 4 None s) /\
  (forall St endpoint step rd s,
     extract_with_retry St endpoint step default_settings (Some 0) rd s =
     extract_with_retry St endpoint step default_settings None rd s) /\
  (forall St endpoint step mr s,
     extract_with_retry St endpoint step default_settings mr (Some 0%Q) s =
     extract_with_retry St endpoint step default_settings mr None s) /\
  (forall St endpoint step mr rd s,
     always_fails St step ->
     count_attempts (snd (extract_with_retry St endpoint step default_settings mr rd s))
       <> 1%nat) /\
  (forall St endpoint step mr rd s,
     Forall (fun d => ~ (d == 0)%Q)
       (sleeps (snd (extract_with_retry St endpoint step default_settings mr rd s)))).
Proof.
  split; [|split; [|split; [|split]]].
  - intros. reflexivity.
  - intros. reflexivity.
  - intros. reflexivity.
  - intros St endpoint step mr rd s Hfail. unfold extract_with_retry.
    simpl etl_max_retries. simpl etl_retry_delay_seconds.
    pose proof (py_or_Z_default_nonzero mr) as Hnz.
    set (m := py_or_Z mr 3) in *.
    destruct (Z_lt_le_dec m 0) as [Hneg|Hnn].
    + replace (py_range_len (m + 1)) with 0%nat by (unfold py_range_len; lia).
      simpl. discriminate.
    + replace (py_range_len (m + 1)) with (S (Z.to_nat m)) by (unfold py_range_len; lia).
      pose proof (retry_loop_all_fail St endpoint step Hfail m (py_or_Q rd (5 # 1))
                    (Z.to_nat m) 0 None s) as H.
      destruct (retry_loop St endpoint step m _ 0 (S (Z.to_nat m)) None s) as [[r s'] tr].
      destruct H as [Hc _]. simpl. rewrite Hc. lia.
  - intros St endpoint step mr rd s. apply Forall_forall. intros d Hin.
    unfold extract_with_retry in Hin.
    destruct (retry_loop_sleep_shape St endpoint step _ _ _ _ _ _ d Hin) as [i ->].
    intros H0. apply Qmult_integral in H0. destruct H0 as [H0|H0].
    + exact (py_or_Q_default_nonzero rd H0).
    + exact (pow2_Q_nonzero i H0).
Qed.

End ExtractorProofs.

(** ** Health checker: properties *)
Module HealthProofs.
Import Extractor Health Observe Fixtures.

Lemma flush_loop_ok (load : health_loader) (cnt : nat -> Z) :
  forall (buf : buffer) i total,
    (forall j, (j < List.length buf)%nat -> load (i + j)%nat (nth j buf None) = Some (cnt (i + j)%nat)) ->
    flush_loop load i buf total = (Ok (total + sum_counts cnt i (List.length buf)), buf).
Proof.
  induction buf as [|m rest IH]; intros i total H.
  - simpl. unfold sum_counts. simpl. rewrite Z.add_0_r. reflexivity.
  - simpl. specialize (H 0%nat ltac:(simpl; lia)) as H0. rewrite Nat.add_0_r in H0.
    simpl in H0. rewrite H0.
    rewrite IH.
    + unfold sum_counts. simpl. rewrite Z.add_assoc. reflexivity.
    + intros j Hj. replace (S i + j)%nat with (i + S j)%nat by lia.
      apply (H (S j)). simpl. lia.
Qed.

Lemma flush_loop_raise (load : health_loader) (cnt : nat -> Z) :
  forall (buf : buffer) i total k,
    (k < List.length buf)%nat ->
    (forall j, (j < k)%nat -> load (i + j)%nat (nth j buf None) = Some (cnt (i + j)%nat)) ->
    load (i + k)%nat (nth k buf None) = None ->
    exists e, flush_loop load i buf total = (Err e, firstn (S k) buf).
Proof.
  induction buf as [|m rest IH]; intros i total k Hk Hbefore Hk_raise; [simpl in Hk; lia|].
  destruct k as [|k].
  - rewrite Nat.add_0_r in Hk_raise. simpl in Hk_raise |- *. rewrite Hk_raise. eauto.
  - simpl. pose proof (Hbefore 0%nat ltac:(lia)) as H0. rewrite Nat.add_0_r in H0.
    simpl in H0. rewrite H0.
    destruct (IH (S i) (total + cnt i) k ltac:(simpl in Hk; lia)) as [e He].
    + intros j Hj. replace (S i + j)%nat with (i + S j)%nat by lia.
      apply (Hbefore (S j)). lia.
    + replace (S i + k)%nat with (i + S k)%nat by lia. exact Hk_raise.
    + rewrite He. eauto.
Qed.

(** Claim C3 (amended): [flush_metrics] hands the buffered records, in
    order, to the loader. When no loader call raises, the buffer is cleared
    and the result is the sum of the inserted counts the loader reports
    (a record whose INSERT failed counts 0), not the number handed off.
    When a loader call raises, the error reaches the caller, the later
    records are not handed off and the buffer is kept. An empty buffer
    gives 0. *)
Theorem flush_metrics_spec (load : health_loader) (cnt : nat -> Z) (buf : buffer) :
  flush_metrics load [] = (Ok 0, [], []) /\
  ((forall j, (j < List.length buf)%nat -> load j (nth j buf None) = Some (cnt j)) ->
   flush_metrics load buf = (Ok (sum_counts cnt 0 (List.length buf)), [], buf)) /\
  (forall k, (k < List.length buf)%nat ->
   (forall j, (j < k)%nat -> load j (nth j buf None) = Some (cnt j)) ->
   load k (nth k buf None) = None ->
   exists e, flush_metrics load buf = (Err e, buf, firstn (S k) buf)).
Proof.
  split; [reflexivity|split].
  - intros H. destruct buf as [|m rest]; [reflexivity|].
    unfold flush_metrics. rewrite (flush_loop_ok load cnt (m :: rest) 0 0); [reflexivity|].
    intros j Hj. apply H. exact Hj.
  - intros k Hk Hbefore Hraise. destruct buf as [|m rest]; [simpl in Hk; lia|].
    destruct (flush_loop_raise load cnt (m :: rest) 0 0 k Hk Hbefore Hraise) as [e He].
    exists e. unfold flush_metrics. rewrite He. reflexivity.
Qed.

(** Claim C3 refuted as stated: two records are handed off, the buffer is
    cleared, but [flush_metrics] returns 1, not 2. *)
Lemma flush_returns_stored_not_handed :
  let '(r, buf', handed) := flush_metrics loader_one_failure [Some rec_ok; Some rec_bad] in
  r = Ok 1 /\ buf' = [] /\ List.length handed = 2%nat.
Proof. vm_compute. auto. Qed.

Lemma flush_metrics_spec_witness :
  flush_metrics loader_one_failure [Some rec_ok; Some rec_bad] =
    (Ok (sum_counts (fun i => if Nat.eqb i 0 then 1 else 0) 0 2), [], [Some rec_ok; Some rec_bad]).
Proof.
  apply (proj1 (proj2 (flush_metrics_spec loader_one_failure
                         (fun i => if Nat.eqb i 0 then 1 else 0)
                         [Some rec_ok; Some rec_bad]))).
  intros j Hj. destruct j as [|[|j]]; [reflexivity|reflexivity|simpl in Hj; lia].
Defined.

Lemma count_success_map (l : list health_metrics) :
  count_success (map Some l) = Ok (Z.of_nat (List.length (filter hm_success l))).
Proof.
  induction l as [|m rest IH]; [reflexivity|].
  simpl. rewrite IH. destruct (hm_success m); cbn [List.length]; f_equal; lia.
Qed.

Lemma round_half_even_err (y : Q) :
  (- (1 # 2) <= inject_Z (round_half_even y) - y <= 1 # 2)%Q.
Proof.
  destruct y as [n d]. unfold round_half_even. cbn [Qnum Qden].
  pose proof (Z.div_mod n (Zpos d) ltac:(lia)) as Hdm.
  pose proof (Z.mod_pos_bound n (Zpos d) ltac:(lia)) as Hmb.
  set (fl := n / Zpos d) in *. set (r := n mod Zpos d) in *.
  assert (E : forall z, (inject_Z z - (n # d) == (z * Zpos d - n) # d)%Q).
  { intros z. unfold Qeq, Qminus, Qplus, Qopp, inject_Z. simpl. ring. }
  assert (G : forall z, 2 * Z.abs (z * Zpos d - n) <= Zpos d ->
            (- (1 # 2) <= inject_Z z - (n # d) <= 1 # 2)%Q).
  { intros z Hz. rewrite E. unfold Qle; simpl. split; lia. }
  destruct (Z.compare_spec (2 * r) (Zpos d)); [destruct (Z.even fl)| |];
    apply G; lia.
Qed.

Lemma two_pow_pos (e : Z) : (0 < Qpower two e)%Q.
Proof. apply Qpower_0_lt. unfold two, Qlt; simpl; lia. Qed.

Lemma two_neq0 : ~ (two == 0)%Q.
Proof. unfold two, Qeq; simpl; lia. Qed.

Lemma flog2_le (q : Q) : (0 < q)%Q -> (Qpower two (flog2 q) <= q)%Q.
Proof.
  intros Hq. unfold flog2.
  destruct (Qle_bool _ q) eqn:Hb; [apply Qle_bool_iff; exact Hb|].
  destruct q as [n d]. cbn [Qnum Qden] in *.
  assert (Hn : 0 < n) by (unfold Qlt in Hq; simpl in Hq; lia).
  set (a := Z.log2 n). set (b := Z.log2 (Zpos d)).
  pose proof (Z.log2_spec n Hn) as [Ha1 Ha2].
  pose proof (Z.log2_spec (Zpos d) ltac:(lia)) as [Hb1 Hb2].
  pose proof (Z.log2_nonneg n) as Ha0. pose proof (Z.log2_nonneg (Zpos d)) as Hb0.
  fold a b in Ha1, Ha2, Hb1, Hb2, Ha0, Hb0.
  replace (a - b - 1) with (a + - (b + 1)) by lia.
  rewrite (Qpower_plus two a (- (b + 1)) two_neq0), Qpower_opp.
  assert (E1 : (Qpower two a == inject_Z (2 ^ a))%Q)
    by (change two with (inject_Z 2); symmetry; apply Zpower_Qpower; lia).
  assert (E2 : (Qpower two (b + 1) == inject_Z (2 ^ (b + 1)))%Q)
    by (change two with (inject_Z 2); symmetry; apply Zpower_Qpower; lia).
  rewrite E1, E2.
  rewrite Z.pow_succ_r in Hb2 by lia.
  assert (Hp : 0 < 2 ^ (b + 1)) by (apply Z.pow_pos_nonneg; lia).
  destruct (2 ^ (b + 1)) as [|p|p] eqn:Hpe; try lia.
  rewrite Z.pow_add_r, Z.pow_1_r in Hpe by lia.
  unfold Qle, Qmult, Qinv, inject_Z; simpl. nia.
Qed.

Lemma b64_round_err (q : Q) : (0 <= q)%Q ->
  (- (q * Qpower two (-53) + Qpower two (-1075)) <= b64_round q - q <=
   q * Qpower two (-53) + Qpower two (-1075))%Q.
Proof.
  intros Hq0. pose proof (two_pow_pos (-53)) as H53. pose proof (two_pow_pos (-1075)) as H1075.
  unfold b64_round. destruct (Qle_bool q 0) eqn:Hb.
  - apply Qle_bool_iff in Hb. nra.
  - assert (Hq : (0 < q)%Q).
    { destruct (Qlt_le_dec 0 q) as [H|H]; [exact H|].
      apply Qle_bool_iff in H. congruence. }
    cbv zeta. set (e := Z.max (flog2 q - 52) (-1074)).
    pose proof (two_pow_pos e) as HP. set (P := Qpower two e) in *.
    pose proof (round_half_even_err (q / P)) as Hr.
    set (m := round_half_even (q / P)) in *.
    assert (Hx : (inject_Z m * P - q == (inject_Z m - q / P) * P)%Q).
    { field. intros E. rewrite E in HP. apply (Qlt_irrefl 0). exact HP. }
    rewrite Hx.
    assert (Hhalf : ((1 # 2) * P <= q * Qpower two (-53) + Qpower two (-1075))%Q).
    { destruct (Z.max_spec (flog2 q - 52) (-1074)) as [[H1 H2]|[H1 H2]];
        unfold P, e; rewrite H2.
      - assert (E2 : (Qpower two (-1074) == 2 * Qpower two (-1075))%Q) by reflexivity.
        rewrite E2. nra.
      - replace (flog2 q - 52) with (flog2 q + -52) by lia.
        rewrite (Qpower_plus two (flog2 q) (-52) two_neq0).
        assert (E2 : (Qpower two (-52) == 2 * Qpower two (-53))%Q) by reflexivity.
        rewrite E2. pose proof (flog2_le q Hq). pose proof (two_pow_pos (flog2 q)). nra. }
    nra.
Qed.

Lemma b64_round_err100 (q : Q) : (0 <= q <= 100)%Q ->
  (- Qpower two (-46) <= b64_round q - q <= Qpower two (-46))%Q.
Proof.
  intros Hq. pose proof (b64_round_err q (proj1 Hq)) as H.
  assert (E53 : (Qpower two (-53) == 1 # 9007199254740992)%Q) by reflexivity.
  assert (E46 : (Qpower two (-46) == 1 # 70368744177664)%Q) by reflexivity.
  assert (S : (Qpower two (-1075) <= 1 # 1000000000000000)%Q)
    by (apply Qle_bool_iff; vm_compute; reflexivity).
  rewrite E53 in H. rewrite E46. nra.
Qed.

Lemma rate_rounding (s t : Z) : 0 <= s <= t -> 0 < t ->
  let q := (inject_Z (100 * s) / inject_Z t)%Q in
  let r := py_round2 (py_truediv (100 * s) t) in
  (exists k, r == inject_Z k / 100)%Q /\
  (Qabs (r - q) <= (1 # 200) + Qpower two (-46))%Q /\
  (t <= 2 ^ 38 -> (Qabs (r - q) <= 1 # 200)%Q).
Proof.
  intros Hs Ht q r.
  assert (HT : (0 < inject_Z t)%Q) by (unfold Qlt; simpl; lia).
  assert (Hqt : (q * inject_Z t == 100 * inject_Z s)%Q).
  { unfold q. rewrite inject_Z_mult. field. intros E. rewrite E in HT. apply (Qlt_irrefl 0), HT. }
  assert (HS : (0 <= inject_Z s <= inject_Z t)%Q) by (unfold Qle; simpl; lia).
  assert (Hq : (0 <= q <= 100)%Q) by nra.
  pose proof (b64_round_err100 q Hq) as Hx. unfold py_truediv in r. fold q in r.
  set (x := b64_round q) in *.
  pose proof (round_half_even_err (x * 100)) as Hk.
  set (k := round_half_even (x * 100)) in *.
  assert (Hr : (r == inject_Z k * (1 # 100))%Q).
  { unfold r, py_round2. fold x k. rewrite Qred_correct. unfold Qeq; simpl; lia. }
  assert (E46 : (Qpower two (-46) == 1 # 70368744177664)%Q) by reflexivity.
  rewrite E46 in Hx |- *.
  split; [exists k; rewrite Hr; field|].
  split.
  - apply Qabs_Qle_condition. rewrite Hr. lra.
  - intros Hb. apply Qabs_Qle_condition. rewrite Hr.
    assert (Hb' : (inject_Z t <= 274877906944)%Q).
    { change 274877906944%Q with (inject_Z (2 ^ 38)). rewrite <- Zle_Qle. exact Hb. }
    set (D := 2 * t * k - 20000 * s).
    assert (HD : (inject_Z D == 200 * inject_Z t * (inject_Z k * (1 # 100) - q))%Q).
    { assert (HD0 : (inject_Z D == 2 * inject_Z t * inject_Z k - 20000 * inject_Z s)%Q)
        by (unfold D, Qeq; simpl; ring).
      rewrite HD0.
      transitivity (2 * inject_Z t * inject_Z k - 200 * (q * inject_Z t))%Q;
        [rewrite Hqt; ring | ring]. }
    assert (HDb : (- inject_Z t - 1 < inject_Z D < inject_Z t + 1)%Q).
    { rewrite HD. nra. }
    assert (HDz : - t <= D <= t).
    { destruct HDb as [H1 H2]. unfold Qlt in H1, H2; simpl in H1, H2. lia. }
    assert (HDq : (- inject_Z t <= inject_Z D <= inject_Z t)%Q).
    { unfold Qle; simpl; lia. }
    rewrite HD in HDq. nra.
Qed.

Lemma rate_bounds (s t : Z) : 0 <= s <= t -> 0 < t ->
  (0 <= py_round2 (py_truediv (100 * s) t) <= 100)%Q.
Proof.
  intros Hs Ht.
  assert (HT : (0 < inject_Z t)%Q) by (unfold Qlt; simpl; lia).
  set (q := (inject_Z (100 * s) / inject_Z t)%Q).
  assert (Hqt : (q * inject_Z t == 100 * inject_Z s)%Q).
  { unfold q. rewrite inject_Z_mult. field. intros E. rewrite E in HT. apply (Qlt_irrefl 0), HT. }
  assert (HS : (0 <= inject_Z s <= inject_Z t)%Q) by (unfold Qle; simpl; lia).
  assert (Hq : (0 <= q <= 100)%Q) by nra.
  pose proof (b64_round_err100 q Hq) as Hx.
  assert (E46 : (Qpower two (-46) == 1 # 70368744177664)%Q) by reflexivity.
  rewrite E46 in Hx.
  unfold py_truediv. fold q. set (x := b64_round q) in *.
  pose proof (round_half_even_err (x * 100)) as Hk.
  unfold py_round2. rewrite Qred_correct.
  set (k := round_half_even (x * 100)) in *.
  assert (Hk1 : (inject_Z k < 10001)%Q) by lra.
  assert (Hk0 : (-1 < inject_Z k)%Q) by lra.
  unfold Qlt in Hk1, Hk0; simpl in Hk1, Hk0.
  unfold Qle; simpl; lia.
Qed.

(** Claim C9: over a buffer of outcome records, [get_summary] reports the
    buffer length, the number of records whose success flag is set, their
    difference, and [round(100 * success / total, 2)] as Python computes
    it: the double nearest to the quotient, rounded at the second decimal
    (0 on an empty buffer); it leaves the buffer as it was. That rate is a
    two-decimal number within half a hundredth of the exact
    [100 * success / total] for every buffer of at most [2 ^ 38] records,
    and at most [2 ^ -46] further away for a larger one. Any 4 records of
    which 3 succeeded give
    [{total: 4, success: 3, failed: 1, success_rate: 75}]. *)
Theorem get_summary_spec :
  (forall l : list health_metrics,
     let tot := Z.of_nat (List.length l) in
     let succ := Z.of_nat (List.length (filter hm_success l)) in
     get_summary (map Some l) =
       (Ok (mkSummary tot succ (tot - succ)
              (if tot =? 0 then 0 else py_round2 (py_truediv (100 * succ) tot))),
        map Some l)) /\
  (forall l : list health_metrics, l <> [] ->
     let tot := Z.of_nat (List.length l) in
     let succ := Z.of_nat (List.length (filter hm_success l)) in
     let rate := py_round2 (py_truediv (100 * succ) tot) in
     let exact := (inject_Z (100 * succ) / inject_Z tot)%Q in
     (exists k, rate == inject_Z k / 100)%Q /\
     (Qabs (rate - exact) <= (1 # 200) + Qpower two (-46))%Q /\
     (tot <= 2 ^ 38 -> (Qabs (rate - exact) <= 1 # 200)%Q)) /\
  (forall l : list health_metrics,
     List.length l = 4%nat -> List.length (filter hm_success l) = 3%nat ->
     get_summary (map Some l) = (Ok (mkSummary 4 3 1 75), map Some l)).
Proof.
  assert (Hgen : forall l : list health_metrics,
     let tot := Z.of_nat (List.length l) in
     let succ := Z.of_nat (List.length (filter hm_success l)) in
     get_summary (map Some l) =
       (Ok (mkSummary tot succ (tot - succ)
              (if tot =? 0 then 0 else py_round2 (py_truediv (100 * succ) tot))),
        map Some l)).
  { intros [|m rest]; [reflexivity|]. cbv zeta.
    unfold get_summary. rewrite count_success_map, length_map. cbn [map].
    replace (0 <? Z.of_nat (List.length (m :: rest))) with true
      by (symmetry; apply Z.ltb_lt; cbn [List.length]; lia).
    replace (Z.of_nat (List.length (m :: rest)) =? 0) with false
      by (symmetry; apply Z.eqb_neq; cbn [List.length]; lia).
    reflexivity. }
  split; [exact Hgen|]. split.
  - intros l Hl. cbv zeta.
    assert (Hf : (List.length (filter hm_success l) <= List.length l)%nat).
    { clear Hl. induction l as [|m rest IH]; simpl; [lia|].
      destruct (hm_success m); simpl; lia. }
    assert (Hp : (0 < List.length l)%nat) by (destruct l; [contradiction|simpl; lia]).
    apply rate_rounding; lia.
  - intros l H4 H3. rewrite (Hgen l). cbv zeta. rewrite H4, H3. vm_compute. reflexivity.
Qed.

Lemma get_summary_spec_witness :
  List.length [rec_ok; rec_ok; rec_bad; rec_ok] = 4%nat /\
  get_summary (map Some [rec_ok; rec_ok; rec_bad; rec_ok]) =
    (Ok (mkSummary 4 3 1 75), map Some [rec_ok; rec_ok; rec_bad; rec_ok]).
Proof.
  split; [reflexivity|].
  apply (proj2 (proj2 get_summary_spec)); reflexivity.
Defined.

End HealthProofs.

(** ** Orchestrator: properties *)
Module PipelineProofs.
Import Extractor Health Pipeline Observe.

Section Isolation.
Variable St Rows : Type.

Lemma source_eqb_refl (x : source) : source_eqb x x = true.
Proof. destruct x; reflexivity. Qed.

(** Every event of a source's block is about that source. *)
Lemma run_source_events (E : env St Rows) (x : source) (s : St) (b : buffer) :
  Forall (fun ev => event_of x ev = true) (rs_trace (run_source St Rows E x s b)).
Proof.
  unfold run_source.
  destruct (extract_src St Rows E x s) as [[[data h]|e] s1];
    [|simpl; repeat constructor; apply source_eqb_refl].
  destruct (record_metric h b) as [[u|e] b1];
    [|simpl; repeat constructor; apply source_eqb_refl].
  destruct data as [d|]; [|simpl; repeat constructor; apply source_eqb_refl].
  destruct (truthy d); [|simpl; repeat constructor; apply source_eqb_refl].
  destruct (transform St Rows E x d) as [df|];
    [|simpl; repeat constructor; apply source_eqb_refl].
  destruct (load St Rows E x df);
    simpl; repeat constructor; apply source_eqb_refl.
Qed.

Lemma filter_other_source (x y : source) (t : list cycle_event) :
  source_eqb y x = false ->
  Forall (fun ev => event_of x ev = true) t ->
  filter (event_of y) t = [].
Proof.
  intros Hxy Hall. induction Hall as [|ev t' Hev _ IH]; [reflexivity|].
  simpl. rewrite IH.
  destruct ev as [z|z|z|]; simpl in Hev |- *; try discriminate;
    destruct x, y, z; simpl in *; congruence.
Qed.

(** A block whose transform and load are those of [E] runs as in [E]. *)
Lemma run_source_other (E : env St Rows) (src x : source) (which : broken_step)
  (s : St) (b : buffer) :
  source_eqb x src = false ->
  run_source St Rows (break_source St Rows E src which) x s b = run_source St Rows E x s b.
Proof.
  intros Hx. destruct which; unfold run_source; simpl; rewrite Hx; reflexivity.
Qed.

(** The broken block records its metric as before, touches the shared
    state as before, and reports [not_run]. *)
Lemma run_source_broken (E : env St Rows) (src : source) (which : broken_step)
  (s : St) (b : buffer) :
  run_source St Rows (break_source St Rows E src which) src s b =
    (not_run, rs_state (run_source St Rows E src s b),
     rs_buf (run_source St Rows E src s b),
     rs_trace (run_source St Rows (break_source St Rows E src which) src s b)).
Proof.
  destruct which; unfold run_source, rs_state, rs_buf, rs_trace; simpl;
    rewrite source_eqb_refl;
    destruct (extract_src St Rows E src s) as [[[data h]|e] s1]; try reflexivity;
    destruct h; try reflexivity;
    destruct data as [d|]; try reflexivity;
    destruct (truthy d); try reflexivity;
    destruct (transform St Rows E src d); try reflexivity;
    destruct (load St Rows E src r); reflexivity.
Qed.

Lemma break_load_health (E : env St Rows) (src : source) (which : broken_step) :
  load_health St Rows (break_source St Rows E src which) = load_health St Rows E.
Proof. destruct which; reflexivity. Qed.

End Isolation.

(** Run one block of the cycle in both environments: rewrite the broken
    environment's block to the original one (or to its [not_run] form),
    then name its outputs. *)
Ltac step_source E x :=
  match goal with
  | |- context [run_source ?St ?Rows (break_source _ _ E x ?which) x ?s0 ?b0] =>
      rewrite (run_source_broken St Rows E x which s0 b0);
      pose proof (run_source_events St Rows (break_source St Rows E x which) x s0 b0);
      generalize dependent (rs_trace (run_source St Rows (break_source St Rows E x which) x s0 b0));
      intros
  | |- context [run_source ?St ?Rows (break_source _ _ E ?src ?which) x ?s0 ?b0] =>
      rewrite (run_source_other St Rows E src x which s0 b0) by reflexivity
  end;
  match goal with
  | |- context [run_source ?St ?Rows E x ?s0 ?b0] =>
      pose proof (run_source_events St Rows E x s0 b0);
      destruct (run_source St Rows E x s0 b0) as [[[? ?] ?] ?];
      cbn [rs_state rs_buf rs_trace] in *
  end.

(** The events of the other sources' blocks vanish from a source's filter. *)
Ltac close_filters :=
  repeat match goal with
  | H : Forall (fun ev => event_of ?x ev = true) ?t |- context [filter (event_of ?y) ?t] =>
      rewrite (filter_other_source x y t) by (try assumption; destruct y; first [reflexivity | discriminate])
  end;
  simpl; try reflexivity;
  repeat match goal with
  | |- context [filter (event_of ?y) ?t] =>
      first [ rewrite (filter_other_source _ y t); [| assumption | assumption] ]
  end.

(** Claim C2: make the transform (or the load) step of one source raise,
    everything else unchanged. The cycle still returns exactly when it
    returned before (only the final flush can make it raise), the other two
    sources run their extraction, transform and load as before and report
    the same results, the failing source reports [not_run], the health
    buffer and the shared extraction state end up the same, and the flush
    still runs. *)
Theorem run_etl_cycle_isolates_source (St Rows : Type) (E : env St Rows)
  (s : St) (buf : buffer) (src : source) (which : broken_step) :
  let '(o, s3, b4, tr) := run_etl_cycle St Rows E s buf in
  let '(o', s3', b4', tr') := run_etl_cycle St Rows (break_source St Rows E src which) s buf in
  s3' = s3 /\ b4' = b4 /\
  (forall src', source_eqb src' src = false ->
     filter (event_of src') tr' = filter (event_of src') tr) /\
  In EvFlush tr' /\
  match o, o' with
  | Ok R, Ok R' =>
    get_result R' src = not_run /\
    (forall src', source_eqb src' src = false -> get_result R' src' = get_result R src')
  | Err e, Err e' => e' = e
  | _, _ => False
  end.
Proof.
  unfold run_etl_cycle. rewrite break_load_health.
  destruct src;
    step_source E Prices; step_source E Plant; step_source E Signals;
    (destruct (flush_metrics (load_health St Rows E) _) as [[[n|e] b4] handed];
     [destruct (get_summary b4) as [[sm|e'] b5]|]);
    (split; [reflexivity|]); (split; [reflexivity|]);
    (split; [ intros src' Hs'; rewrite ?filter_app; close_filters | ]);
    (split; [ rewrite ?in_app_iff; simpl; tauto | ]);
    try reflexivity;
    (split; [reflexivity | intros [] Hs'; first [reflexivity | discriminate]]).
Qed.

End PipelineProofs.

(** ** Token manager, HTTP clients and headers: further properties *)
Module TokenLifecycleProofs.
Import TokenManager Observe TokenProofs.

(** Once a token counts as expired it stays expired: at any later instant,
    and with any larger refresh margin. *)
Theorem is_expired_monotone (t : Token) (m m' : Z) (now now' : Q)
  (Hexp : is_expired t m now = true) (Hclock : (now <= now')%Q) (Hm : m <= m') :
  is_expired t m' now' = true.
Proof.
  apply is_expired_true in Hexp. apply is_expired_true.
  assert (Hq : (inject_Z m <= inject_Z m')%Q) by (rewrite <- Zle_Qle; exact Hm).
  lra.
Qed.

Lemma is_expired_monotone_witness :
  is_expired Fixtures.tok 300 (4300 # 1) = true /\ is_expired Fixtures.tok 600 (5000 # 1) = true.
Proof.
  split; [reflexivity|].
  apply (is_expired_monotone Fixtures.tok 300 600 (4300 # 1) (5000 # 1));
    [reflexivity | unfold Qle; simpl; lia | lia].
Defined.

(** When [get_token] raises, the acquisition was attempted (one token
    request sent) and the cache is left as it was; the very next call at
    the same instant sends a token request again. *)
Theorem get_token_failure_keeps_cache (st : Settings) (net : nat -> acq_response)
  (now : Q) (s s' : state) (e : py_error)
  (H : get_token st net now s = (Err e, s')) :
  tm_token s' = tm_token s /\ tm_acquisitions s' = S (tm_acquisitions s) /\
  tm_acquisitions (snd (get_token st net now s')) = S (tm_acquisitions s').
Proof.
  unfold get_token in H |- *.
  assert (Hr : forall s0, refresh net s0 = (Err e, s') ->
               tm_token s' = tm_token s0 /\ tm_acquisitions s' = S (tm_acquisitions s0)).
  { intros s0 Hs0. unfold refresh, acquire_token in Hs0.
    destruct (net (tm_acquisitions s0)); inversion Hs0; subst; simpl; auto. }
  destruct (tm_token s) as [t|] eqn:Ht.
  - destruct (is_expired t _ now) eqn:He; [|discriminate].
    destruct (Hr s H) as [Htok Hn]. rewrite Ht in Htok.
    split; [exact Htok|split; [exact Hn|]].
    rewrite Htok, He. apply refresh_counts.
  - destruct (Hr s H) as [Htok Hn]. rewrite Ht in Htok.
    split; [exact Htok|split; [exact Hn|]].
    rewrite Htok. apply refresh_counts.
Qed.

Lemma get_token_failure_keeps_cache_witness :
  get_token default_settings (fun _ => AcqFail (HTTPStatusError 503 "down")) 0 init =
    (Err (HTTPStatusError 503 "down"), {| tm_token := None; tm_acquisitions := 1 |}) /\
  tm_acquisitions (snd (get_token default_settings (fun _ => AcqFail (HTTPStatusError 503 "down")) 0
                          {| tm_token := None; tm_acquisitions := 1 |})) = 2%nat.
Proof.
  split; [reflexivity|].
  apply (get_token_failure_keeps_cache default_settings
           (fun _ => AcqFail (HTTPStatusError 503 "down")) 0 init
           {| tm_token := None; tm_acquisitions := 1 |} (HTTPStatusError 503 "down")).
  reflexivity.
Defined.

(** A token whose lifetime is not longer than the refresh margin is never
    reused: every [get_token] call from its acquisition instant on sends a
    new token request. *)
Theorem short_lived_token_always_refreshed (st : Settings) (net : nat -> acq_response)
  (now : Q) (s : state) (t : Token)
  (Ht : tm_token s = Some t)
  (Hlife : expires_in t <= token_refresh_margin_seconds st)
  (Hnow : (acquired_at t <= now)%Q) :
  tm_acquisitions (snd (get_token st net now s)) = S (tm_acquisitions s).
Proof.
  apply (proj1 (get_token_counts st net now s)).
  right. exists t. split; [exact Ht|].
  unfold expires_at.
  assert (Hq : (inject_Z (expires_in t) <= inject_Z (token_refresh_margin_seconds st))%Q)
    by (rewrite <- Zle_Qle; exact Hlife).
  lra.
Qed.

Lemma short_lived_token_always_refreshed_witness :
  let s := {| tm_token := Some (mkToken "short" "bearer" 120 (1000 # 1)); tm_acquisitions := 1 |} in
  tm_acquisitions (snd (get_token default_settings Fixtures.net1 (1000 # 1) s)) = 2%nat.
Proof.
  apply (short_lived_token_always_refreshed default_settings Fixtures.net1 (1000 # 1)
           {| tm_token := Some (mkToken "short" "bearer" 120 (1000 # 1)); tm_acquisitions := 1 |}
           (mkToken "short" "bearer" 120 (1000 # 1)));
    [reflexivity | simpl; lia | apply Qle_refl].
Defined.

Lemma get_token_ok_cached (st : Settings) (net : nat -> acq_response) (now : Q)
  (s s' : state) (a : string) :
  get_token st net now s = (Ok a, s') ->
  exists t, tm_token s' = Some t /\ a = access_token t.
Proof.
  unfold get_token.
  assert (Hr : refresh net s = (Ok a, s') -> exists t, tm_token s' = Some t /\ a = access_token t).
  { unfold refresh, acquire_token. destruct (net (tm_acquisitions s)) as [x y z w|e];
      intros H; inversion H; subst; simpl; eauto. }
  destruct (tm_token s) as [t|] eqn:Ht; [|exact Hr].
  destruct (is_expired t _ now); [exact Hr|].
  intros H. inversion H; subst. eauto.
Qed.

(** [get_auth_headers] succeeds with the single header
    [Authorization: Bearer <token>], where the token is the one the manager
    holds in its cache afterwards, and it changes the manager exactly as
    [get_token] does. *)
Theorem get_auth_headers_bearer (st : Settings) (net : nat -> acq_response) (now : Q)
  (s s' : state) (h : list (string * string))
  (H : Auth.get_auth_headers st net now s = (Ok h, s')) :
  snd (get_token st net now s) = s' /\
  exists t, tm_token s' = Some t /\ fst (get_token st net now s) = Ok (access_token t) /\
            h = [("Authorization", "Bearer " ++ access_token t)].
Proof.
  unfold Auth.get_auth_headers in H.
  destruct (get_token st net now s) as [[a|e] s1] eqn:G; inversion H; subst.
  destruct (get_token_ok_cached st net now s s' a G) as [t [Ht ->]].
  split; [reflexivity|]. exists t. auto.
Qed.

Lemma get_auth_headers_bearer_witness :
  Auth.get_auth_headers default_settings Fixtures.net1 (1000 # 1) init =
    (Ok [("Authorization", "Bearer first")],
     {| tm_token := Some (mkToken "first" "bearer" 3600 (1000 # 1)); tm_acquisitions := 1 |}) /\
  exists t, tm_token {| tm_token := Some (mkToken "first" "bearer" 3600 (1000 # 1));
                        tm_acquisitions := 1 |} = Some t /\
            fst (get_token default_settings Fixtures.net1 (1000 # 1) init) = Ok (access_token t) /\
            [("Authorization", "Bearer first")] = [("Authorization", "Bearer " ++ access_token t)].
Proof.
  split; [reflexivity|].
  exact (proj2 (get_auth_headers_bearer default_settings Fixtures.net1 (1000 # 1) init _ _
                  eq_refl)).
Defined.

(** The HTTP client of the token manager and of each extractor: two
    [_get_client] calls in a row return the same client and create at most
    one; [close] twice is [close] once; after [close], [_get_client]
    creates a new client whose number was never handed out before. *)
Theorem client_reuse_and_reopen :
  (forall o, let '(c1, o1) := Clients.get_client o in Clients.get_client o1 = (c1, o1) /\
             (Clients.created o1 <= S (Clients.created o))%nat) /\
  (forall o, Clients.close (Clients.close o) = Clients.close o) /\
  (forall o, Clients.get_client (Clients.close o) =
             (Clients.created o,
              Clients.mkOwner (Clients.Client (Clients.created o) false) (S (Clients.created o)))).
Proof.
  split; [|split].
  - intros [[|id [|]] n]; simpl; split; auto.
  - intros [[|id [|]] n]; reflexivity.
  - intros [[|id [|]] n]; reflexivity.
Qed.

End TokenLifecycleProofs.

(** ** Extraction and retries: further properties *)
Module RetryProofs.
Import TokenManager Extractor Observe TokenProofs ExtractorProofs.

Section Stop.
Variable St : Type.
Variable endpoint : string.
Variable step : St -> result (json * health_metrics) * St.

Lemma retry_loop_stops_at (mr : Z) (rd : Q) :
  forall k attempt fuel last s r s1,
    (k < fuel)%nat -> Z.of_nat (attempt + k) <= mr ->
    (forall i, (i < k)%nat ->
       exists e s', step (run_steps St step i s) = (Err e, s') /\ caught e = true) ->
    step (run_steps St step k s) = (r, s1) ->
    match r with Ok _ => True | Err e => caught e = false end ->
    exists tr,
      retry_loop St endpoint step mr rd attempt fuel last s =
        (match r with Ok (d, h) => Ok (Some d, Some h) | Err e => Err e end, s1, tr) /\
      count_attempts tr = S k /\
      sleeps tr = map (fun i => (rd * inject_Z (2 ^ Z.of_nat i))%Q) (seq attempt k).
Proof.
  induction k as [|k IH]; intros attempt fuel last s r s1 Hk Hm Hpre Hstep Hr;
    (destruct fuel as [|fuel]; [lia|]); rewrite retry_loop_S.
  - simpl in Hstep. rewrite Hstep.
    destruct r as [[d h]|e].
    + exists [EvAttempt]. auto.
    + rewrite Hr. exists [EvAttempt]. auto.
  - destruct (Hpre 0%nat ltac:(lia)) as [e0 [s0 [Hs0 Hc0]]]. simpl in Hs0.
    rewrite Hs0, Hc0. cbv zeta.
    destruct (IH (S attempt) fuel (Some (failure_record endpoint e0)) s0 r s1
                ltac:(lia) ltac:(lia)) as [tr [Heq [Hn Hsl]]].
    + intros i Hi. destruct (Hpre (S i) ltac:(lia)) as [e [s' [He Hc]]].
      exists e, s'. split; [|exact Hc]. simpl in He. rewrite Hs0 in He. exact He.
    + simpl in Hstep. rewrite Hs0 in Hstep. exact Hstep.
    + exact Hr.
    + rewrite Heq.
      replace (Z.of_nat attempt <? mr) with true by (symmetry; apply Z.ltb_lt; lia).
      eexists. split; [reflexivity|]. split.
      * rewrite count_attempts_sleep_prefix; [rewrite Hn; reflexivity|].
        repeat constructor. eauto.
      * rewrite sleeps_cons_app, Hsl. reflexivity.
Qed.

End Stop.

(** [extract_with_retry] stops at the first attempt that does not raise a
    retried error ([HTTPStatusError], [RequestError]), provided that
    attempt is within the budget: a success returns that attempt's payload
    and health record, any other exception propagates; either way after
    exactly [k + 1] attempts, having slept [retry_delay * 2 ^ i] after each
    failed attempt [i < k]. *)
Theorem extract_with_retry_first_outcome (St : Type) (endpoint : string)
  (step : St -> result (json * health_metrics) * St) (st : Settings)
  (mr : option Z) (rd : option Q) (s0 : St) (k : nat)
  (r : result (json * health_metrics)) (s1 : St)
  (Hk : Z.of_nat k <= py_or_Z mr (etl_max_retries st))
  (Hpre : forall i, (i < k)%nat ->
     exists e s', step (run_steps St step i s0) = (Err e, s') /\ caught e = true)
  (Hstep : step (run_steps St step k s0) = (r, s1))
  (Hr : match r with Ok _ => True | Err e => caught e = false end) :
  exists tr,
    extract_with_retry St endpoint step st mr rd s0 =
      (match r with Ok (d, h) => Ok (Some d, Some h) | Err e => Err e end, s1, tr) /\
    count_attempts tr = S k /\
    sleeps tr = map (fun i => (py_or_Q rd (etl_retry_delay_seconds st) *
                               inject_Z (2 ^ Z.of_nat i))%Q) (seq 0 k).
Proof.
  unfold extract_with_retry.
  apply (retry_loop_stops_at St endpoint step); auto.
  unfold py_range_len. lia.
Qed.

Lemma extract_with_retry_first_outcome_witness :
  exists tr,
    extract_with_retry nat "/api/v1/energy/prices" (scripted Fixtures.fail_fail_ok)
      default_settings (Some 2) (Some 1%Q) 0%nat =
      (Ok (Some Fixtures.ok_body, Some Fixtures.ok_hm), 3%nat, tr) /\
    count_attempts tr = 3%nat /\
    sleeps tr = map (fun i => (py_or_Q (Some 1%Q) (etl_retry_delay_seconds default_settings) *
                               inject_Z (2 ^ Z.of_nat i))%Q) (seq 0 2).
Proof.
  apply (extract_with_retry_first_outcome nat "/api/v1/energy/prices"
           (scripted Fixtures.fail_fail_ok) default_settings (Some 2) (Some 1%Q) 0%nat 2
           (Ok (Fixtures.ok_body, Fixtures.ok_hm)) 3%nat).
  - simpl. lia.
  - intros i Hi. destruct i as [|[|i]]; [| |lia];
      eexists; eexists; split; reflexivity.
  - reflexivity.
  - exact I.
Defined.

(** Claim C1 (amended): with a retry budget [m] passed explicitly and at
    least 1, or left to the configured default, an endpoint whose every
    attempt fails with an [HTTPStatusError] or a [RequestError] is tried
    exactly [m + 1] times, and [extract_with_retry] returns normally with
    no payload and the failure record built from the last attempt's error.
    Any other exception, raised by an attempt [k <= m] after [k] attempts
    that failed with those two kinds, propagates out of
    [extract_with_retry] on that attempt: after [k + 1] attempts, in the
    state that attempt left. *)
Theorem extract_with_retry_amended
  (St : Type) (endpoint : string) (step : St -> result (json * health_metrics) * St)
  (st : Settings) (mr : option Z) (rd : option Q) (s0 : St)
  (Hbudget : match mr with Some m => 1 <= m | None => 0 <= etl_max_retries st end) :
  let m := match mr with Some m => m | None => etl_max_retries st end in
  (always_fails St step ->
   let '(r, s', tr) := extract_with_retry St endpoint step st mr rd s0 in
   count_attempts tr = S (Z.to_nat m) /\
   s' = run_steps St step (S (Z.to_nat m)) s0 /\
   (forall e s1, step (run_steps St step (Z.to_nat m) s0) = (Err e, s1) ->
                 r = Ok (None, Some (failure_record endpoint e)))) /\
  (forall (k : nat) (e : py_error) (s1 : St),
     Z.of_nat k <= m ->
     (forall i, (i < k)%nat ->
        exists e' s', step (run_steps St step i s0) = (Err e', s') /\ caught e' = true) ->
     step (run_steps St step k s0) = (Err e, s1) -> caught e = false ->
     exists tr, extract_with_retry St endpoint step st mr rd s0 = (Err e, s1, tr) /\
                count_attempts tr = S k).
Proof.
  cbv zeta. split.
  - intros Hfail. exact (extract_with_retry_exhausts St endpoint step st mr rd s0 Hbudget Hfail).
  - intros k e s1 Hk Hpre Hstep Hc.
    assert (Hm : py_or_Z mr (etl_max_retries st) =
                 match mr with Some m => m | None => etl_max_retries st end).
    { destruct mr as [m|]; simpl; [|reflexivity].
      replace (m =? 0) with false by (symmetry; apply Z.eqb_neq; lia). reflexivity. }
    unfold extract_with_retry.
    destruct (retry_loop_stops_at St endpoint step (py_or_Z mr (etl_max_retries st))
                (py_or_Q rd (etl_retry_delay_seconds st)) k 0
                (py_range_len (py_or_Z mr (etl_max_retries st) + 1)) None s0 (Err e) s1)
      as [tr [Heq [Hn _]]].
    + rewrite Hm. unfold py_range_len. lia.
    + rewrite Hm. lia.
    + exact Hpre.
    + exact Hstep.
    + exact Hc.
    + exists tr. split; [exact Heq|exact Hn].
Qed.

Lemma extract_with_retry_amended_witness :
  1 <= 2 /\
  (always_fails nat (scripted Fixtures.always_down) ->
   let '(r, s', tr) := extract_with_retry nat "/x" (scripted Fixtures.always_down)
                         default_settings (Some 2) None 0%nat in
   count_attempts tr = S (Z.to_nat 2) /\
   s' = run_steps nat (scripted Fixtures.always_down) (S (Z.to_nat 2)) 0%nat /\
   (forall e s1, scripted Fixtures.always_down
                   (run_steps nat (scripted Fixtures.always_down) (Z.to_nat 2) 0%nat) =
                 (Err e, s1) ->
                 r = Ok (None, Some (failure_record "/x" e)))) /\
  (forall (k : nat) (e : py_error) (s1 : nat),
     Z.of_nat k <= 2 ->
     (forall i, (i < k)%nat ->
        exists e' s', scripted Fixtures.always_down
                        (run_steps nat (scripted Fixtures.always_down) i 0%nat) = (Err e', s') /\
                      caught e' = true) ->
     scripted Fixtures.always_down (run_steps nat (scripted Fixtures.always_down) k 0%nat) =
       (Err e, s1) -> caught e = false ->
     exists tr, extract_with_retry nat "/x" (scripted Fixtures.always_down)
                  default_settings (Some 2) None 0%nat = (Err e, s1, tr) /\
                count_attempts tr = S k).
Proof.
  split; [lia|].
  exact (extract_with_retry_amended nat "/x" (scripted Fixtures.always_down)
           default_settings (Some 2) None 0%nat ltac:(simpl; lia)).
Defined.

Lemma sum_geometric (d : Q) :
  forall n a,
    (fold_right Qplus 0 (map (fun i => d * inject_Z (2 ^ Z.of_nat i)) (seq a n)) ==
     d * inject_Z (2 ^ Z.of_nat (a + n) - 2 ^ Z.of_nat a))%Q.
Proof.
  induction n as [|n IH]; intros a.
  - simpl. rewrite Nat.add_0_r, Z.sub_diag. simpl. ring.
  - cbn [seq map fold_right]. rewrite IH.
    replace (S a + n)%nat with (a + S n)%nat by lia.
    assert (H2 : 2 ^ Z.of_nat (S a) = 2 * 2 ^ Z.of_nat a)
      by (rewrite Nat2Z.inj_succ, Z.pow_succ_r; lia).
    rewrite H2. unfold Z.sub. rewrite !inject_Z_plus, !inject_Z_opp, inject_Z_mult.
    ring.
Qed.

(** With a budget [m >= 0] and an endpoint failing every attempt with a
    retried error, [extract_with_retry] sleeps [m] times (no sleep follows
    the last attempt), in total [retry_delay * (2 ^ m - 1)] seconds. *)
Theorem exhausted_backoff_total (St : Type) (endpoint : string)
  (step : St -> result (json * health_metrics) * St) (st : Settings)
  (mr : option Z) (rd : option Q) (s0 : St)
  (Hfail : always_fails St step)
  (Hm : 0 <= py_or_Z mr (etl_max_retries st)) :
  let m := py_or_Z mr (etl_max_retries st) in
  let delay := py_or_Q rd (etl_retry_delay_seconds st) in
  let tr := snd (extract_with_retry St endpoint step st mr rd s0) in
  List.length (sleeps tr) = Z.to_nat m /\
  (fold_right Qplus 0 (sleeps tr) == delay * inject_Z (2 ^ m - 1))%Q.
Proof.
  cbv zeta. unfold extract_with_retry.
  set (m := py_or_Z mr (etl_max_retries st)) in *.
  set (delay := py_or_Q rd (etl_retry_delay_seconds st)).
  replace (py_range_len (m + 1)) with (S (Z.to_nat m)) by (unfold py_range_len; lia).
  rewrite (retry_loop_sleeps_geometric St endpoint step Hfail m delay (Z.to_nat m) 0 None s0)
    by lia.
  split; [rewrite length_map, length_seq; reflexivity|].
  rewrite sum_geometric. simpl (Z.of_nat 0). rewrite Z.pow_0_r.
  rewrite Nat.add_0_l, Z2Nat.id by exact Hm. reflexivity.
Qed.

Lemma exhausted_backoff_total_witness :
  List.length (sleeps (snd (extract_with_retry nat "/x" (scripted Fixtures.always_down)
                              default_settings (Some 2) None 0%nat))) = 2%nat /\
  Qeq (fold_right Qplus 0%Q (sleeps (snd (extract_with_retry nat "/x" (scripted Fixtures.always_down)
                                          default_settings (Some 2) None 0%nat))))
      (Qmult (5 # 1) (inject_Z (2 ^ 2 - 1))).
Proof.
  exact (exhausted_backoff_total nat "/x" (scripted Fixtures.always_down) default_settings
           (Some 2) None 0%nat always_down_fails ltac:(simpl; lia)).
Defined.

(** A negative retry budget (passed, or configured) makes
    [range(max_retries + 1)] empty: no attempt is made, nothing is slept,
    and [(None, None)] is returned. *)
Theorem negative_budget_no_attempt (St : Type) (endpoint : string)
  (step : St -> result (json * health_metrics) * St) (st : Settings)
  (mr : option Z) (rd : option Q) (s0 : St)
  (Hneg : py_or_Z mr (etl_max_retries st) < 0) :
  extract_with_retry St endpoint step st mr rd s0 = (Ok (None, None), s0, []).
Proof.
  unfold extract_with_retry.
  replace (py_range_len (py_or_Z mr (etl_max_retries st) + 1)) with 0%nat
    by (unfold py_range_len; lia).
  reflexivity.
Qed.

Lemma negative_budget_no_attempt_witness :
  extract_with_retry nat "/x" (scripted Fixtures.always_down) default_settings
    (Some (-1)) None 0%nat = (Ok (None, None), 0%nat, []).
Proof.
  apply (negative_budget_no_attempt nat "/x" (scripted Fixtures.always_down) default_settings
           (Some (-1)) None 0%nat).
  simpl. lia.
Defined.

Lemma extract_acquisitions (st : Settings) (net : nat -> acq_response) (now : Q)
  (endpoint : string) (resp : http_response) (tm : TokenManager.state) :
  tm_acquisitions (snd (fst (extract st net now endpoint resp tm))) =
  tm_acquisitions (snd (get_token st net now tm)).
Proof.
  unfold extract.
  destruct (get_token st net now tm) as [[a|e] tm1]; [|reflexivity].
  destruct resp as [code elapsed [body|] reason|msg elapsed]; simpl; [| |reflexivity];
    destruct (is_success code); try reflexivity;
    destruct (code =? 401); reflexivity.
Qed.

(** Within [extract_with_retry] over the live extraction step: an attempt
    answered 401 raises the status error (which is retried), leaves no
    token cached, and makes the next attempt send a token request before
    its data request. *)
Theorem after_401_next_attempt_reauthenticates (st : Settings) (net : nat -> acq_response)
  (clock : nat -> Q) (endpoint : string) (answers : nat -> http_response)
  (tm tm1 : TokenManager.state) (n : nat) (a : string) (elapsed : Z)
  (body : option json) (reason : string)
  (Hhdr : get_token st net (clock n) tm = (Ok a, tm1))
  (H401 : answers n = Response 401 elapsed body reason) :
  let '(r, (tm2, n2)) := live_step st net clock endpoint answers (tm, n) in
  r = Err (HTTPStatusError 401 reason) /\ caught (HTTPStatusError 401 reason) = true /\
  tm_token tm2 = None /\ n2 = S n /\
  tm_acquisitions (fst (snd (live_step st net clock endpoint answers (tm2, n2)))) =
  S (tm_acquisitions tm2).
Proof.
  unfold live_step at 1. unfold extract at 1. rewrite Hhdr, H401. simpl.
  split; [reflexivity|split; [reflexivity|split; [reflexivity|split; [reflexivity|]]]].
  unfold live_step.
  pose proof (extract_acquisitions st net (clock (S n)) endpoint (answers (S n))
                (invalidate_token tm1)) as Hx.
  destruct (extract st net (clock (S n)) endpoint (answers (S n)) (invalidate_token tm1))
    as [[r' tm3] tr3].
  simpl in Hx |- *. rewrite Hx. exact (refresh_counts net (invalidate_token tm1)).
Qed.

Lemma after_401_next_attempt_reauthenticates_witness :
  get_token default_settings Fixtures.net1 (1000 # 1) init =
    (Ok "first", {| tm_token := Some (mkToken "first" "bearer" 3600 (1000 # 1));
                    tm_acquisitions := 1 |}) /\
  let '(r, (tm2, n2)) := live_step default_settings Fixtures.net1 (fun _ => 1000 # 1)
                           "/api/v1/plant/live" (fun _ => Response 401 5 None "401") (init, 0%nat) in
  r = Err (HTTPStatusError 401 "401") /\ caught (HTTPStatusError 401 "401") = true /\
  tm_token tm2 = None /\ n2 = 1%nat /\
  tm_acquisitions (fst (snd (live_step default_settings Fixtures.net1 (fun _ => 1000 # 1)
                              "/api/v1/plant/live" (fun _ => Response 401 5 None "401")
                              (tm2, n2)))) = S (tm_acquisitions tm2).
Proof.
  split; [reflexivity|].
  exact (after_401_next_attempt_reauthenticates default_settings Fixtures.net1
           (fun _ => 1000 # 1) "/api/v1/plant/live" (fun _ => Response 401 5 None "401")
           init {| tm_token := Some (mkToken "first" "bearer" 3600 (1000 # 1));
                   tm_acquisitions := 1 |} 0 "first" 5 None "401" eq_refl eq_refl).
Defined.

End RetryProofs.

(** ** Token endpoint failures inside the retry loop *)
Module TokenOutageProofs.
Import TokenManager Extractor Observe ExtractorProofs.

Lemma live_step_token_down (st : Settings) (net : nat -> acq_response) (clock : nat -> Q)
  (endpoint : string) (answers : nat -> http_response) (e : py_error) (acq n : nat)
  (Hnet : forall i, net i = AcqFail e) :
  live_step st net clock endpoint answers ({| tm_token := None; tm_acquisitions := acq |}, n) =
  (Err e, ({| tm_token := None; tm_acquisitions := S acq |}, S n)).
Proof.
  unfold live_step, extract, get_token, refresh, acquire_token. simpl. rewrite Hnet.
  reflexivity.
Qed.

Lemma retry_loop_token_down (st : Settings) (net : nat -> acq_response) (clock : nat -> Q)
  (endpoint : string) (answers : nat -> http_response) (e : py_error)
  (Hnet : forall i, net i = AcqFail e) (Hc : caught e = true) (mr : Z) (rd : Q) :
  forall fuel attempt last acq n,
    exists tr,
      retry_loop _ endpoint (live_step st net clock endpoint answers) mr rd attempt (S fuel) last
        ({| tm_token := None; tm_acquisitions := acq |}, n) =
      (Ok (None, Some (failure_record endpoint e)),
       ({| tm_token := None; tm_acquisitions := acq + S fuel |}, (n + S fuel)%nat), tr) /\
      count_attempts tr = S fuel.
Proof.
  induction fuel as [|fuel IH]; intros attempt last acq n;
    rewrite retry_loop_S, (live_step_token_down st net clock endpoint answers e) by exact Hnet; rewrite Hc; cbv zeta.
  - cbn [retry_loop]. eexists. split.
    + rewrite !Nat.add_1_r. reflexivity.
    + rewrite count_attempts_sleep_prefix; [reflexivity|apply sleep_prefix_shape].
  - destruct (IH (S attempt) (Some (failure_record endpoint e)) (S acq) (S n)) as [tr [Heq Hn]].
    rewrite Heq. eexists. split.
    + replace (S acq + S fuel)%nat with (acq + S (S fuel))%nat by lia.
      replace (S n + S fuel)%nat with (n + S (S fuel))%nat by lia.
      reflexivity.
    + rewrite count_attempts_sleep_prefix; [rewrite Hn; reflexivity|apply sleep_prefix_shape].
Qed.

(** With no token cached and a token endpoint that keeps failing with an
    HTTP status error or a transport error, no data request is ever sent;
    [extract_with_retry] retries the whole budget ([m + 1] attempts, one
    token request each) and returns no payload with a failure record that
    carries the token endpoint's error under the data endpoint's name. *)
Theorem token_endpoint_down_retried (st : Settings) (net : nat -> acq_response)
  (clock : nat -> Q) (endpoint : string) (answers : nat -> http_response)
  (mr : option Z) (rd : option Q) (e : py_error) (acq n : nat)
  (Hnet : forall i, net i = AcqFail e) (Hc : caught e = true)
  (Hm : 0 <= py_or_Z mr (etl_max_retries st)) :
  let m := Z.to_nat (py_or_Z mr (etl_max_retries st)) in
  (forall now resp tm0, tm_token tm0 = None ->
     snd (extract st net now endpoint resp tm0) = []) /\
  exists tr,
    extract_with_retry _ endpoint (live_step st net clock endpoint answers) st mr rd
      ({| tm_token := None; tm_acquisitions := acq |}, n) =
    (Ok (None, Some (failure_record endpoint e)),
     ({| tm_token := None; tm_acquisitions := acq + S m |}, (n + S m)%nat), tr) /\
    count_attempts tr = S m.
Proof.
  cbv zeta. split.
  - intros now resp [tok k] Htok. simpl in Htok. subst tok.
    unfold extract, get_token, refresh, acquire_token. simpl. rewrite Hnet. reflexivity.
  - unfold extract_with_retry.
    replace (py_range_len (py_or_Z mr (etl_max_retries st) + 1))
      with (S (Z.to_nat (py_or_Z mr (etl_max_retries st)))) by (unfold py_range_len; lia).
    apply retry_loop_token_down; assumption.
Qed.

Lemma token_endpoint_down_retried_witness :
  (forall i : nat, (fun _ : nat => AcqFail (HTTPStatusError 500 "token down")) i =
                   AcqFail (HTTPStatusError 500 "token down")) /\
  exists tr,
    extract_with_retry _ "/api/v1/energy/prices"
      (live_step default_settings (fun _ => AcqFail (HTTPStatusError 500 "token down"))
         (fun _ => 1000 # 1) "/api/v1/energy/prices" (fun _ => Response 200 3 None ""))
      default_settings (Some 1) None ({| tm_token := None; tm_acquisitions := 0 |}, 0%nat) =
    (Ok (None, Some (failure_record "/api/v1/energy/prices" (HTTPStatusError 500 "token down"))),
     ({| tm_token := None; tm_acquisitions := 0 + S (Z.to_nat 1) |}, (0 + S (Z.to_nat 1))%nat), tr) /\
    count_attempts tr = S (Z.to_nat 1).
Proof.
  split; [reflexivity|].
  exact (proj2 (token_endpoint_down_retried default_settings
                  (fun _ => AcqFail (HTTPStatusError 500 "token down")) (fun _ => 1000 # 1)
                  "/api/v1/energy/prices" (fun _ => Response 200 3 None "") (Some 1) None
                  (HTTPStatusError 500 "token down") 0 0 (fun _ => eq_refl) eq_refl
                  ltac:(simpl; lia))).
Defined.

End TokenOutageProofs.

(** ** Health checker and loaders: further properties *)
Module HealthLoaderProofs.
Import Extractor Health Loader Observe Fixtures HealthProofs.

Lemma count_success_app (buf : buffer) (h : health_metrics) (c : Z) :
  count_success buf = Ok c ->
  count_success (buf ++ [Some h])%list = Ok (c + (if hm_success h then 1 else 0)).
Proof.
  revert c. induction buf as [|[m|] rest IH]; intros c H; simpl in H |- *.
  - injection H as <-. destruct (hm_success h); reflexivity.
  - destruct (count_success rest) as [c'|e]; [|discriminate].
    injection H as <-. rewrite (IH c' eq_refl). f_equal. lia.
  - discriminate.
Qed.

Lemma count_success_bound (buf : buffer) (c : Z) :
  count_success buf = Ok c -> 0 <= c <= Z.of_nat (List.length buf).
Proof.
  revert c. induction buf as [|[m|] rest IH]; intros c H; simpl in H.
  - injection H as <-. simpl. lia.
  - destruct (count_success rest) as [c'|e]; [|discriminate].
    injection H as <-. specialize (IH c' eq_refl).
    cbn [List.length]. destruct (hm_success m); lia.
  - discriminate.
Qed.

Lemma get_summary_ok_inv (buf : buffer) (sm : summary) :
  fst (get_summary buf) = Ok sm ->
  count_success buf = Ok (success sm) /\ total sm = Z.of_nat (List.length buf) /\
  failed sm = total sm - success sm /\
  success_rate sm = (if 0 <? total sm
                     then py_round2 (py_truediv (100 * success sm) (total sm))
                     else 0%Q).
Proof.
  destruct buf as [|x rest].
  - simpl. intros H. injection H as <-. simpl. auto.
  - unfold get_summary.
    destruct (count_success (x :: rest)) as [c|e] eqn:Hc; cbn [fst];
      [|intros H; discriminate H].
    intros H. injection H as <-. cbn [total success failed success_rate]. auto.
Qed.

Lemma get_summary_nonempty (l : buffer) :
  l <> [] ->
  fst (get_summary l) =
  match count_success l with
  | Err e => Err e
  | Ok succ =>
    Ok (mkSummary (Z.of_nat (List.length l)) succ (Z.of_nat (List.length l) - succ)
          (if 0 <? Z.of_nat (List.length l)
           then py_round2 (py_truediv (100 * succ) (Z.of_nat (List.length l)))
           else 0))
  end.
Proof.
  destruct l as [|x rest]; [contradiction|]. intros _. unfold get_summary.
  destruct (count_success (x :: rest)); reflexivity.
Qed.

(** Recording an outcome record adds one to the summary's total, one to
    its success or its failed count according to the record's success
    flag, and nothing else. *)
Theorem record_then_summary (buf : buffer) (sm : summary) (h : health_metrics)
  (H : fst (get_summary buf) = Ok sm) :
  exists sm',
    fst (get_summary (snd (record_metric (Some h) buf))) = Ok sm' /\
    total sm' = total sm + 1 /\
    success sm' = success sm + (if hm_success h then 1 else 0) /\
    failed sm' = failed sm + (if hm_success h then 0 else 1).
Proof.
  destruct (get_summary_ok_inv buf sm H) as [Hc [Ht [Hf _]]].
  pose proof (count_success_app buf h _ Hc) as Hc'.
  unfold record_metric. cbn [snd].
  rewrite get_summary_nonempty by (intros E; apply app_eq_nil in E; destruct E; discriminate).
  rewrite Hc'. eexists. split; [reflexivity|]. cbn [total success failed].
  rewrite length_app. cbn [List.length].
  split; [lia|]. split; [reflexivity|].
  destruct (hm_success h); lia.
Qed.

Lemma record_then_summary_witness :
  fst (get_summary [Some rec_ok]) = Ok (mkSummary 1 1 0 100) /\
  exists sm',
    fst (get_summary (snd (record_metric (Some rec_bad) [Some rec_ok]))) = Ok sm' /\
    total sm' = 1 + 1 /\ success sm' = 1 + 0 /\ failed sm' = 0 + 1.
Proof.
  split; [reflexivity|].
  exact (record_then_summary [Some rec_ok] (mkSummary 1 1 0 100) rec_bad eq_refl).
Defined.

Lemma count_success_none (buf : buffer) :
  In None buf -> exists e, count_success buf = Err e.
Proof.
  induction buf as [|[m|] rest IH]; intros Hin; simpl in Hin |- *.
  - contradiction.
  - destruct Hin as [Hin|Hin]; [discriminate|].
    destruct (IH Hin) as [e He]. rewrite He. eauto.
  - eauto.
Qed.

(** A [None] in the buffer (what [record_metric] appends when
    [extract_with_retry] made no attempt) makes every [get_summary] raise
    until a flush clears the buffer. *)
Theorem summary_raises_on_missing_record (buf : buffer) (Hin : In None buf) :
  exists e, fst (get_summary buf) = Err e.
Proof.
  destruct buf as [|x rest]; [contradiction|].
  destruct (count_success_none (x :: rest) Hin) as [e He].
  exists e. unfold get_summary. rewrite He. reflexivity.
Qed.

Lemma summary_raises_on_missing_record_witness :
  In None [Some rec_ok; None] /\ exists e, fst (get_summary [Some rec_ok; None]) = Err e.
Proof.
  split; [right; left; reflexivity|].
  apply summary_raises_on_missing_record. right. left. reflexivity.
Defined.

(** The success rate [get_summary] reports lies between 0 and 100. *)
Theorem success_rate_bounded (buf : buffer) (sm : summary)
  (H : fst (get_summary buf) = Ok sm) :
  (0 <= success_rate sm <= 100)%Q.
Proof.
  destruct (get_summary_ok_inv buf sm H) as [Hc [Ht [_ Hr]]].
  pose proof (count_success_bound buf _ Hc) as Hb.
  rewrite Hr. destruct (0 <? total sm) eqn:Hpos; [|lra].
  apply Z.ltb_lt in Hpos.
  apply rate_bounds; lia.
Qed.

Lemma success_rate_bounded_witness :
  fst (get_summary [Some rec_ok; Some rec_bad; Some rec_ok]) = Ok (mkSummary 3 2 1 (6667 # 100)) /\
  (0 <= success_rate (mkSummary 3 2 1 (6667 # 100)) <= 100)%Q.
Proof.
  split; [reflexivity|].
  apply (success_rate_bounded [Some rec_ok; Some rec_bad; Some rec_ok]). reflexivity.
Defined.

Lemma length_filter_le {A : Type} (f : A -> bool) (l : list A) :
  (List.length (filter f l) <= List.length l)%nat.
Proof.
  induction l as [|x l IH]; simpl; [lia|]. destruct (f x); simpl; lia.
Qed.

Lemma load_rows_bound {R : Type} (d : db) (rows : list R) (n : Z) :
  load_rows d rows = Some n -> 0 <= n <= Z.of_nat (List.length rows).
Proof.
  unfold load_rows. destruct rows as [|x rest].
  - intros H. injection H as <-. simpl. lia.
  - destruct (connect_ok d); [|discriminate].
    destruct (commit_ok d && close_ok d); [|discriminate].
    intros H. injection H as <-. unfold count_executed.
    pose proof (length_filter_le (execute_ok d) (seq 0 (List.length (x :: rest)))) as Hl.
    rewrite length_seq in Hl. cbn [List.length] in *. lia.
Qed.

(** A [load_*] call that returns reports the number of rows whose INSERT
    statement raised nothing (a statement skipped by [ON CONFLICT DO NOTHING]
    counts too), at most the number of rows; a non-empty frame only returns
    after connecting and committing. An empty frame returns 0. *)
Theorem load_rows_counts_statements {R : Type} (d : db) (rows : list R) (n : Z)
  (H : load_rows d rows = Some n) :
  n = Z.of_nat (count_executed d (List.length rows)) /\
  0 <= n <= Z.of_nat (List.length rows) /\
  (rows <> [] -> connect_ok d = true /\ commit_ok d = true /\ close_ok d = true).
Proof.
  split; [|split; [exact (load_rows_bound d rows n H)|]].
  - unfold load_rows in H. destruct rows as [|x rest].
    + injection H as <-. reflexivity.
    + destruct (connect_ok d); [|discriminate].
      destruct (commit_ok d && close_ok d); [|discriminate].
      injection H as <-. reflexivity.
  - intros Hne. unfold load_rows in H. destruct rows as [|x rest]; [contradiction|].
    destruct (connect_ok d); [|discriminate].
    destruct (commit_ok d) , (close_ok d); simpl in H; try discriminate. auto.
Qed.

Lemma load_rows_counts_statements_witness :
  load_rows (mkDb true (fun i => Nat.eqb i 0) true true) [1; 2]%Z = Some 1 /\
  1 = Z.of_nat (count_executed (mkDb true (fun i => Nat.eqb i 0) true true) 2) /\
  0 <= 1 <= Z.of_nat 2 /\
  ([1; 2]%Z <> [] -> true = true /\ true = true /\ true = true).
Proof.
  split; [reflexivity|].
  exact (load_rows_counts_statements (mkDb true (fun i => Nat.eqb i 0) true true) [1; 2]%Z 1
           eq_refl).
Defined.

Lemma flush_loop_bounded (load : health_loader)
  (Hld : forall i m n, load i m = Some n -> 0 <= n <= 1) :
  forall ms i total r handed,
    flush_loop load i ms total = (Ok r, handed) ->
    total <= r <= total + Z.of_nat (List.length ms).
Proof.
  induction ms as [|m rest IH]; intros i total r handed H; simpl in H.
  - injection H as <- _. lia.
  - destruct (load i m) as [k|] eqn:Hk; [|discriminate].
    destruct (flush_loop load (S i) rest (total + k)) as [[r'|e] h'] eqn:Hr;
      [|discriminate].
    injection H as <- _.
    specialize (IH (S i) (total + k) r' h' Hr). specialize (Hld i m k Hk).
    cbn [List.length]. lia.
Qed.

(** When every health record of a flush goes through [load_health_metrics],
    a successful [flush_metrics] returns at most the number of buffered
    records: each one-row frame contributes 0 or 1. *)
Theorem flush_bounded_by_records (dbs : nat -> db) (buf : buffer) (n : Z)
  (buf' : buffer) (handed : list (option health_metrics))
  (H : flush_metrics (health_loader_of_db dbs) buf = (Ok n, buf', handed)) :
  0 <= n <= Z.of_nat (List.length buf).
Proof.
  unfold flush_metrics in H. destruct buf as [|x rest].
  - injection H as <- _ _. simpl. lia.
  - destruct (flush_loop (health_loader_of_db dbs) 0 (x :: rest) 0) as [[r|e] h] eqn:Hf;
      [|discriminate].
    injection H as <- _ _.
    refine (_ (flush_loop_bounded (health_loader_of_db dbs) _ (x :: rest) 0 0 r h Hf)); [lia|].
    intros i m k Hk. exact (load_rows_bound (dbs i) [m] k Hk).
Qed.

Lemma flush_bounded_by_records_witness :
  flush_metrics (health_loader_of_db (fun _ => mkDb true (fun _ => true) true true))
    [Some rec_ok; Some rec_bad] = (Ok 2, [], [Some rec_ok; Some rec_bad]) /\
  0 <= 2 <= Z.of_nat (List.length [Some rec_ok; Some rec_bad]).
Proof.
  split; [reflexivity|].
  exact (flush_bounded_by_records (fun _ => mkDb true (fun _ => true) true true)
           [Some rec_ok; Some rec_bad] 2 [] [Some rec_ok; Some rec_bad] eq_refl).
Defined.

End HealthLoaderProofs.

(** ** Orchestrator and entry points: further properties *)
Module CycleProofs.
Import Extractor Health Pipeline Observe Runner Fixtures ExtraFixtures.

Section Cycle.
Variable St Rows : Type.

(** A source reports [extracted: True] exactly when its extraction returned
    a truthy payload with a health record, and its transform and load both
    returned; [loaded] is then the load's count. Otherwise it reports
    [loaded: 0]. *)
Theorem run_source_extracted_iff (E : env St Rows) (src : source) (s : St) (buf : buffer) :
  let r := rs_result (run_source St Rows E src s buf) in
  (extracted r = true <->
   exists d h s1 df,
     extract_src St Rows E src s = (Ok (Some d, Some h), s1) /\ truthy d = true /\
     transform St Rows E src d = Some df /\ load St Rows E src df = Some (loaded r)) /\
  (extracted r = false -> loaded r = 0).
Proof.
  cbv zeta. unfold run_source.
  destruct (extract_src St Rows E src s) as [[[data h]|e] s1] eqn:Ex;
    [|split; [split; [discriminate|intros (d' & h' & s1' & df' & E1 & _); discriminate E1]
             |reflexivity]].
  destruct h as [h|];
    [|split; [split; [discriminate|intros (d' & h' & s1' & df' & E1 & _);
                                    injection E1 as _ E1; discriminate E1]
             |reflexivity]].
  cbn [record_metric].
  destruct data as [d|];
    [|split; [split; [discriminate|intros (d' & h' & s1' & df' & E1 & _);
                                    injection E1 as E1 _ _; discriminate E1]
             |reflexivity]].
  destruct (truthy d) eqn:Ht;
    [|split; [split; [discriminate|intros (d' & h' & s1' & df' & E1 & E2 & _);
                                    injection E1 as <- _ _; congruence]
             |reflexivity]].
  destruct (transform St Rows E src d) as [df|] eqn:Htr;
    [|split; [split; [discriminate|intros (d' & h' & s1' & df' & E1 & E2 & E3 & _);
                                    injection E1 as <- _ _; congruence]
             |reflexivity]].
  destruct (load St Rows E src df) as [n|] eqn:Hl.
  - cbn [rs_result extracted loaded]. split; [|discriminate].
    split; [intros _; exists d, h, s1, df; auto|reflexivity].
  - cbn [rs_result extracted loaded]. split; [|reflexivity].
    split; [discriminate|].
    intros (d' & h' & s1' & df' & E1 & E2 & E3 & E4).
    injection E1 as <- _ _. rewrite Htr in E3. injection E3 as <-. congruence.
Qed.

Lemma run_source_buf_effect (E : env St Rows) (src : source) (s : St) (buf : buffer) :
  (forall data h s1, extract_src St Rows E src s = (Ok (data, h), s1) ->
     rs_buf (run_source St Rows E src s buf) = (buf ++ [h])%list /\
     rs_state (run_source St Rows E src s buf) = s1) /\
  (forall e s1, extract_src St Rows E src s = (Err e, s1) ->
     rs_buf (run_source St Rows E src s buf) = buf /\
     rs_state (run_source St Rows E src s buf) = s1).
Proof.
  split.
  - intros data h s1 Ex. unfold run_source. rewrite Ex.
    destruct h as [h|]; cbn [record_metric]; [|split; reflexivity].
    destruct data as [d|]; [|split; reflexivity].
    destruct (truthy d); [|split; reflexivity].
    destruct (transform St Rows E src d) as [df|]; [|split; reflexivity].
    destruct (load St Rows E src df); split; reflexivity.
  - intros e s1 Ex. unfold run_source. rewrite Ex. split; reflexivity.
Qed.

(** Each source's block appends to the health buffer exactly the record
    [extract_with_retry] returned ([None] included), whatever its transform
    and load then do; when [extract_with_retry] raises, nothing is appended. *)
Theorem run_source_records_health (E : env St Rows) (src : source) (s : St) (buf : buffer) :
  (forall data h s1, extract_src St Rows E src s = (Ok (data, h), s1) ->
     rs_buf (run_source St Rows E src s buf) = (buf ++ [h])%list /\
     rs_state (run_source St Rows E src s buf) = s1) /\
  (forall e s1, extract_src St Rows E src s = (Err e, s1) ->
     rs_buf (run_source St Rows E src s buf) = buf /\
     rs_state (run_source St Rows E src s buf) = s1).
Proof. exact (run_source_buf_effect E src s buf). Qed.

Lemma run_source_buf_grows (E : env St Rows) (src : source) (s : St) (buf : buffer) :
  exists new, rs_buf (run_source St Rows E src s buf) = (buf ++ new)%list /\
              (List.length new <= 1)%nat.
Proof.
  destruct (run_source_buf_effect E src s buf) as [Hok Herr].
  destruct (extract_src St Rows E src s) as [[[data h]|e] s1] eqn:Ex.
  - exists [h]. split; [exact (proj1 (Hok data h s1 eq_refl))|simpl; lia].
  - exists []. rewrite app_nil_r. split; [exact (proj1 (Herr e s1 eq_refl))|simpl; lia].
Qed.

Lemma flush_loop_total (load : health_loader) (Hload : forall i m, load i m <> None) :
  forall ms i total, exists r h, flush_loop load i ms total = (Ok r, h).
Proof.
  induction ms as [|m rest IH]; intros i total; simpl; [eauto|].
  destruct (load i m) as [k|] eqn:Hk; [|exfalso; exact (Hload i m Hk)].
  destruct (IH (S i) (total + k)) as [r [h Hr]]. rewrite Hr. eauto.
Qed.

Lemma flush_metrics_total (load : health_loader) (Hload : forall i m, load i m <> None)
  (buf : buffer) : exists n h, flush_metrics load buf = (Ok n, [], h).
Proof.
  destruct buf as [|x rest]; [simpl; eauto|].
  unfold flush_metrics.
  destruct (flush_loop_total load Hload (x :: rest) 0 0) as [r [h Hr]]. rewrite Hr. eauto.
Qed.

Lemma cycle_ok_of_health_total (E : env St Rows)
  (Hload : forall i m, load_health St Rows E i m <> None) (s : St) (buf : buffer) :
  exists R s' tr, run_etl_cycle St Rows E s buf = (Ok R, s', [], tr).
Proof.
  unfold run_etl_cycle.
  destruct (run_source St Rows E Prices s buf) as [[[rp s1] b1] t1].
  destruct (run_source St Rows E Plant s1 b1) as [[[rl s2] b2] t2].
  destruct (run_source St Rows E Signals s2 b2) as [[[rs s3] b3] t3].
  destruct (flush_metrics_total (load_health St Rows E) Hload b3) as [n [h Hf]].
  rewrite Hf. simpl. eauto.
Qed.

(** When no call of the health loader raises, [run_etl_cycle] returns,
    whatever its extractions, transforms and loads do, and leaves the
    health buffer empty. *)
Theorem run_etl_cycle_returns_when_health_loads (E : env St Rows)
  (Hload : forall i m, load_health St Rows E i m <> None) (s : St) (buf : buffer) :
  exists R s' tr, run_etl_cycle St Rows E s buf = (Ok R, s', [], tr).
Proof. exact (cycle_ok_of_health_total E Hload s buf). Qed.

Lemma flush_metrics_err (load : health_loader) (buf b' : buffer) e h :
  flush_metrics load buf = (Err e, b', h) -> b' = buf /\ exists i m, load i m = None.
Proof.
  unfold flush_metrics. destruct buf as [|x rest]; [discriminate|].
  assert (Hl : forall ms i total e h, flush_loop load i ms total = (Err e, h) ->
                 exists i m, load i m = None).
  { induction ms as [|m rest' IH]; intros i total e' h' Hf; simpl in Hf; [discriminate|].
    destruct (load i m) as [k|] eqn:Hk; [|eauto].
    destruct (flush_loop load (S i) rest' (total + k)) as [[r|e''] h''] eqn:Hr;
      [discriminate|]. eauto. }
  destruct (flush_loop load 0 (x :: rest) 0) as [[r|e'] h'] eqn:Hf; [discriminate|].
  intros H. injection H as <- <- <-. split; [reflexivity|]. eauto.
Qed.

Lemma flush_metrics_ok_clears (load : health_loader) (buf b' : buffer) n h :
  flush_metrics load buf = (Ok n, b', h) -> b' = [].
Proof.
  unfold flush_metrics. destruct buf as [|x rest].
  - intros H. injection H as _ <- _. reflexivity.
  - destruct (flush_loop load 0 (x :: rest) 0) as [[r|e] h'];
      intros H; inversion H; reflexivity.
Qed.

(** When [run_etl_cycle] raises, a call of the health loader raised inside
    the final flush; every record buffered before the cycle is still in the
    buffer, in front of the (at most three) records this cycle added, so
    the next flush hands them to the loader again. *)
Theorem run_etl_cycle_raise_keeps_buffer (E : env St Rows) (s : St) (buf : buffer)
  (e : py_error) (s' : St) (b' : buffer) (tr : list cycle_event)
  (H : run_etl_cycle St Rows E s buf = (Err e, s', b', tr)) :
  (exists new, b' = (buf ++ new)%list /\ (List.length new <= 3)%nat) /\
  exists i m, load_health St Rows E i m = None.
Proof.
  unfold run_etl_cycle in H. revert H.
  destruct (run_source_buf_grows E Prices s buf) as [n1 [B1 L1]]. revert B1.
  destruct (run_source St Rows E Prices s buf) as [[[rp s1] b1] t1]. cbn [rs_buf]. intros B1.
  destruct (run_source_buf_grows E Plant s1 b1) as [n2 [B2 L2]]. revert B2.
  destruct (run_source St Rows E Plant s1 b1) as [[[rl s2] b2] t2]. cbn [rs_buf]. intros B2.
  destruct (run_source_buf_grows E Signals s2 b2) as [n3 [B3 L3]]. revert B3.
  destruct (run_source St Rows E Signals s2 b2) as [[[rs s3] b3] t3]. cbn [rs_buf]. intros B3.
  destruct (flush_metrics (load_health St Rows E) b3) as [[[n|e'] b4] h] eqn:Hf.
  - rewrite (flush_metrics_ok_clears _ _ _ _ _ Hf). intros H. discriminate H.
  - intros H. injection H as -> -> -> _.
    destruct (flush_metrics_err _ _ _ _ _ Hf) as [-> Hnone].
    split; [|exact Hnone].
    exists (n1 ++ n2 ++ n3)%list. split.
    + rewrite B3, B2, B1, <- !app_assoc. reflexivity.
    + rewrite !length_app. lia.
Qed.

(** [run_once] makes no extraction when the connectivity test fails and
    returns [False]; when the test passes and no health loader call
    raises, it runs exactly one cycle and returns [True], even if every
    extraction, transform and load failed; the pipeline is closed last on
    both paths. *)
Theorem run_once_outcome (E : env St Rows)
  (Hload : forall i m, load_health St Rows E i m <> None) (s : St) (buf : buffer) :
  run_once St Rows false true E s buf = (Ok false, s, buf, [EvClose]) /\
  exists s', run_once St Rows true true E s buf = (Ok true, s', [], [EvCycle; EvClose]).
Proof.
  split; [reflexivity|].
  unfold run_once.
  destruct (cycle_ok_of_health_total E Hload s buf) as [R [s' [tr Hc]]].
  rewrite Hc. eauto.
Qed.

Lemma sched_loop_total (E : env St Rows)
  (Hload : forall i m, load_health St Rows E i m <> None) (poll : Z) :
  forall fuel s buf, exists s' b',
    sched_loop St Rows fuel poll E s buf =
    (Running, s', b', List.concat (repeat [EvCycle; EvPollSleep poll] fuel)).
Proof.
  induction fuel as [|fuel IH]; intros s buf; [simpl; eauto|].
  simpl. destruct (cycle_ok_of_health_total E Hload s buf) as [R [s1 [tr Hc]]].
  rewrite Hc. destruct (IH s1 []) as [s' [b' Hl]]. rewrite Hl. eauto.
Qed.

(** When no call of the health loader raises, [run_scheduled] (after a
    passing connectivity test) keeps cycling: its first [fuel] iterations
    each run one cycle and then sleep the poll interval, and the loop is
    still running afterwards. *)
Theorem run_scheduled_keeps_cycling (E : env St Rows)
  (Hload : forall i m, load_health St Rows E i m <> None) (fuel : nat) (poll : Z)
  (s : St) (buf : buffer) :
  exists s' b',
    run_scheduled St Rows fuel true true poll E s buf =
    (Running, s', b', List.concat (repeat [EvCycle; EvPollSleep poll] fuel)).
Proof.
  unfold run_scheduled.
  destruct (sched_loop_total E Hload poll fuel s buf) as [s' [b' Hl]]. rewrite Hl. eauto.
Qed.

End Cycle.

Lemma run_etl_cycle_returns_when_health_loads_witness :
  (forall i m, load_health nat unit env_ok i m <> None) /\
  exists R s' tr, run_etl_cycle nat unit env_ok 0%nat [] = (Ok R, s', [], tr).
Proof.
  assert (H : forall i m, load_health nat unit env_ok i m <> None) by (intros; discriminate).
  split; [exact H|].
  exact (run_etl_cycle_returns_when_health_loads nat unit env_ok H 0%nat []).
Defined.

Lemma run_etl_cycle_raise_keeps_buffer_witness :
  run_etl_cycle nat unit env_health_down 0%nat [] =
    (Err (OtherError "load_health_metrics raised"), 3%nat, [Some ok_hm; Some ok_hm; Some ok_hm],
     [EvExtract Prices; EvTransform Prices; EvLoad Prices;
      EvExtract Plant; EvTransform Plant; EvLoad Plant;
      EvExtract Signals; EvTransform Signals; EvLoad Signals; EvFlush]) /\
  (exists new, [Some ok_hm; Some ok_hm; Some ok_hm] = ([] ++ new)%list /\
               (List.length new <= 3)%nat) /\
  exists i m, load_health nat unit env_health_down i m = None.
Proof.
  split; [reflexivity|].
  exact (run_etl_cycle_raise_keeps_buffer nat unit env_health_down 0%nat [] _ _ _ _ eq_refl).
Defined.

Lemma run_once_outcome_witness :
  (forall i m, load_health nat unit env_ok i m <> None) /\
  run_once nat unit false true env_ok 0%nat [] = (Ok false, 0%nat, [], [EvClose]) /\
  exists s', run_once nat unit true true env_ok 0%nat [] = (Ok true, s', [], [EvCycle; EvClose]).
Proof.
  assert (H : forall i m, load_health nat unit env_ok i m <> None) by (intros; discriminate).
  split; [exact H|].
  exact (run_once_outcome nat unit env_ok H 0%nat []).
Defined.

Lemma run_scheduled_keeps_cycling_witness :
  (forall i m, load_health nat unit env_ok i m <> None) /\
  exists s' b',
    run_scheduled nat unit 2 true true 300 env_ok 0%nat [] =
    (Running, s', b', List.concat (repeat [EvCycle; EvPollSleep 300] 2)).
Proof.
  assert (H : forall i m, load_health nat unit env_ok i m <> None) by (intros; discriminate).
  split; [exact H|].
  exact (run_scheduled_keeps_cycling nat unit env_ok H 2 300 0%nat []).
Defined.

End CycleProofs.

(** ** [transform_energy_prices]: properties *)
Module TransformProofs.
Import Extractor Transform ExtraFixtures.

Lemma rbind_ok {A B : Type} (r : result A) (f : A -> result B) (b : B) :
  rbind r f = Ok b -> exists a, r = Ok a /\ f a = Ok b.
Proof. destruct r as [a|e]; simpl; [eauto|discriminate]. Qed.

Lemma rows_of_items_ok (pub st en : json) (ttype : string) :
  forall items rs, rows_of_items pub st en ttype items = Ok rs ->
    List.length rs = List.length items /\
    Forall (fun r => tariff_name r = "home_dynamic" /\ tariff_type r = ttype) rs.
Proof.
  induction items as [|item rest IH]; intros rs H; simpl in H.
  - injection H as <-. auto.
  - apply rbind_ok in H as [u [_ H]]. apply rbind_ok in H as [v [_ H]].
    apply rbind_ok in H as [rs' [Hr H]]. injection H as <-.
    destruct (IH rs' Hr) as [Hl Hf]. simpl. split; [lia|]. constructor; auto.
Qed.

Lemma rows_of_tariffs_ok (pub st en slot : json) :
  forall ttypes rs, rows_of_tariffs pub st en slot ttypes = Ok rs ->
    List.length rs = fold_right plus 0%nat (map (tariff_items slot) ttypes) /\
    Forall (fun r => tariff_name r = "home_dynamic" /\ In (tariff_type r) ttypes) rs /\
    (forall ttype, In ttype ttypes ->
       exists td items, py_get slot ttype (JArr []) = Ok td /\ py_iter td = Ok items).
Proof.
  induction ttypes as [|ttype rest IH]; intros rs H; simpl in H.
  - injection H as <-. simpl. split; [reflexivity|split; [constructor|intros _ []]].
  - apply rbind_ok in H as [td [Htd H]]. apply rbind_ok in H as [items [Hit H]].
    apply rbind_ok in H as [r1 [Hr1 H]]. apply rbind_ok in H as [r2 [Hr2 H]].
    injection H as <-.
    destruct (rows_of_items_ok pub st en ttype items r1 Hr1) as [L1 F1].
    destruct (IH r2 Hr2) as [L2 [F2 I2]].
    split; [|split].
    + rewrite length_app, L1, L2. simpl. unfold tariff_items. rewrite Htd. simpl.
      rewrite Hit. reflexivity.
    + apply Forall_app. split.
      * eapply Forall_impl; [|exact F1]. intros r [Hn Ht]. split; [exact Hn|left; auto].
      * eapply Forall_impl; [|exact F2]. intros r [Hn Ht]. split; [exact Hn|right; auto].
    + intros t [<-|Ht]; [eauto|exact (I2 t Ht)].
Qed.

Lemma rows_of_slots_ok (pub : json) :
  forall slots rs, rows_of_slots pub slots = Ok rs ->
    List.length rs = fold_right plus 0%nat (map slot_items slots) /\
    Forall (fun r => tariff_name r = "home_dynamic" /\ In (tariff_type r) tariff_types) rs /\
    (forall slot, In slot slots ->
       exists st en rs', rows_of_tariffs pub st en slot tariff_types = Ok rs').
Proof.
  induction slots as [|slot rest IH]; intros rs H; simpl in H.
  - injection H as <-. simpl. split; [reflexivity|split; [constructor|intros _ []]].
  - apply rbind_ok in H as [st [_ H]]. apply rbind_ok in H as [en [_ H]].
    apply rbind_ok in H as [r1 [Hr1 H]]. apply rbind_ok in H as [r2 [Hr2 H]].
    injection H as <-.
    destruct (rows_of_tariffs_ok pub st en slot tariff_types r1 Hr1) as [L1 [F1 _]].
    destruct (IH r2 Hr2) as [L2 [F2 I2]].
    split; [|split].
    + rewrite length_app, L1, L2. reflexivity.
    + apply Forall_app. split; [exact F1|exact F2].
    + intros s [Hs|Hs]; [subst s; exists st, en, r1; exact Hr1|exact (I2 s Hs)].
Qed.

Lemma set_column_length (upd : price_row -> json -> price_row) :
  forall rows col, List.length col = List.length rows ->
    List.length (set_column upd rows col) = List.length rows.
Proof.
  induction rows as [|r rs IH]; intros [|c cs] H; simpl in *; try lia.
  rewrite IH; lia.
Qed.

Lemma set_column_Forall (P : price_row -> Prop) (upd : price_row -> json -> price_row)
  (Hupd : forall r c, P r -> P (upd r c)) :
  forall rows col, Forall P rows -> Forall P (set_column upd rows col).
Proof.
  induction rows as [|r rs IH]; intros [|c cs] H; simpl; try constructor;
    inversion H; subst; auto.
Qed.

Lemma falsy_prices_no_items (p : json) :
  truthy p = false ->
  match rbind (Ok p) py_iter with
  | Ok slots => fold_right plus 0%nat (map slot_items slots)
  | Err _ => 0%nat
  end = 0%nat.
Proof.
  destruct p as [|b|q|str|l|l]; simpl; intros H; try reflexivity.
  - apply negb_false_iff, String.eqb_eq in H. subst str. reflexivity.
  - apply negb_false_iff, Nat.eqb_eq, length_zero_iff_nil in H. subst l. reflexivity.
  - apply negb_false_iff, Nat.eqb_eq, length_zero_iff_nil in H. subst l. reflexivity.
Qed.

(** When [transform_energy_prices] returns, it has one row per item listed
    under one of the four tariff types of one price slot (so no row when
    the payload lists none), each with tariff name [home_dynamic] and its
    tariff type among [grid], [electricity], [integrated], [grid_usage].
    The timestamp conversion is [pd.to_datetime], which keeps a column's
    length. *)
Theorem transform_energy_prices_rows (to_datetime : list json -> option (list json))
  (Hconv : forall col col', to_datetime col = Some col' -> List.length col' = List.length col)
  (data : json) (rows : list price_row)
  (H : transform_energy_prices to_datetime data = Ok rows) :
  List.length rows = price_items data /\
  Forall (fun r => tariff_name r = "home_dynamic" /\ In (tariff_type r) tariff_types) rows.
Proof.
  unfold transform_energy_prices, price_items in *.
  apply rbind_ok in H as [pub [_ H]].
  apply rbind_ok in H as [prices [Hp H]]. rewrite Hp.
  destruct (truthy prices) eqn:Ht; simpl in H.
  2: { injection H as <-. rewrite (falsy_prices_no_items prices Ht). split; [reflexivity|constructor]. }
  apply rbind_ok in H as [slots [Hs H]]. simpl. rewrite Hs.
  apply rbind_ok in H as [rs [Hrs H]].
  destruct (rows_of_slots_ok pub slots rs Hrs) as [L [F _]].
  destruct rs as [|r0 rs0].
  - injection H as <-. simpl in L. rewrite <- L. split; [reflexivity|constructor].
  - set (rs := r0 :: rs0) in *.
    apply rbind_ok in H as [c1 [H1 H]]. apply rbind_ok in H as [c2 [H2 H]].
    apply rbind_ok in H as [c3 [H3 H]]. injection H as <-.
    assert (Hc : forall (f : price_row -> json) (l : list price_row) c,
               of_option (to_datetime (map f l)) = Ok c -> List.length c = List.length l).
    { intros f l c Hc. unfold of_option in Hc.
      destruct (to_datetime (map f l)) as [c'|] eqn:Hd; [|discriminate].
      injection Hc as <-. rewrite (Hconv _ _ Hd), length_map. reflexivity. }
    pose proof (Hc _ _ _ H1) as E1.
    pose proof (Hc _ _ _ H2) as E2.
    pose proof (Hc _ _ _ H3) as E3.
    split.
    + transitivity (List.length (set_column set_start (set_column set_publication rs c1) c2));
        [exact (set_column_length set_end _ c3 E3)|].
      transitivity (List.length (set_column set_publication rs c1));
        [exact (set_column_length set_start _ c2 E2)|].
      transitivity (List.length rs); [exact (set_column_length set_publication _ c1 E1)|exact L].
    + set (P := fun r => tariff_name r = "home_dynamic" /\ In (tariff_type r) tariff_types).
      exact (set_column_Forall P set_end (fun r c Hr => Hr) _ c3
               (set_column_Forall P set_start (fun r c Hr => Hr) _ c2
                  (set_column_Forall P set_publication (fun r c Hr => Hr) rs c1 F))).
Qed.

Lemma transform_energy_prices_rows_witness :
  (forall col col' : list json, Some col = Some col' -> List.length col' = List.length col) /\
  match transform_energy_prices (fun col => Some col) prices_sample with
  | Ok rows =>
    List.length rows = price_items prices_sample /\
    Forall (fun r => tariff_name r = "home_dynamic" /\ In (tariff_type r) tariff_types) rows
  | Err _ => False
  end.
Proof.
  assert (Hc : forall col col' : list json, Some col = Some col' -> List.length col' = List.length col)
    by (intros col col' E; injection E as <-; reflexivity).
  split; [exact Hc|].
  pose proof (transform_energy_prices_rows (fun col => Some col) Hc prices_sample) as T.
  destruct (transform_energy_prices (fun col => Some col) prices_sample) as [rows|e] eqn:E.
  - exact (T rows eq_refl).
  - vm_compute in E. discriminate E.
Defined.

(** A payload object without [prices], or whose [prices] is empty or
    otherwise falsy, gives an empty frame without calling [pd.to_datetime];
    a payload that is not a JSON object (e.g. a list) makes
    [transform_energy_prices] raise. *)
Theorem transform_energy_prices_no_prices (to_datetime : list json -> option (list json)) :
  (forall l, (forall v, dict_lookup l "prices" = Some v -> truthy v = false) ->
     transform_energy_prices to_datetime (JObj l) = Ok []) /\
  (forall d, (forall l, d <> JObj l) -> exists e, transform_energy_prices to_datetime d = Err e).
Proof.
  split.
  - intros l Hl. unfold transform_energy_prices. cbn [py_get rbind].
    destruct (dict_lookup l "prices") as [v|] eqn:Hv; [rewrite (Hl v eq_refl)|]; reflexivity.
  - intros d Hd. destruct d as [| | | | |l]; try (eexists; reflexivity).
    exfalso. exact (Hd l eq_refl).
Qed.

(** A price slot that maps one of the four tariff types to JSON [null]
    makes [transform_energy_prices] raise ([for item in None] is a
    [TypeError]), whatever the other slots hold. *)
Theorem transform_energy_prices_null_tariff (to_datetime : list json -> option (list json))
  (l : list (string * json)) (slots : list json) (sl : list (string * json)) (ttype : string)
  (Hp : dict_lookup l "prices" = Some (JArr slots))
  (Hin : In (JObj sl) slots)
  (Ht : In ttype tariff_types)
  (Hn : dict_lookup sl ttype = Some JNull) :
  exists e, transform_energy_prices to_datetime (JObj l) = Err e.
Proof.
  unfold transform_energy_prices. cbn [py_get rbind]. rewrite Hp.
  assert (Htr : truthy (JArr slots) = true).
  { destruct slots; [contradiction|reflexivity]. }
  rewrite Htr. cbn [negb py_iter rbind].
  destruct (rows_of_slots _ slots) as [rs|e] eqn:Hrs; [|eexists; reflexivity].
  exfalso.
  destruct (rows_of_slots_ok _ slots rs Hrs) as [_ [_ Hsl]].
  destruct (Hsl (JObj sl) Hin) as [st [en [rs' Hr]]].
  destruct (rows_of_tariffs_ok _ st en (JObj sl) tariff_types rs' Hr) as [_ [_ Hti]].
  destruct (Hti ttype Ht) as [td [items [Htd Hit]]].
  cbn [py_get] in Htd. rewrite Hn in Htd. injection Htd as <-. discriminate Hit.
Qed.

Lemma transform_energy_prices_null_tariff_witness :
  dict_lookup [("prices", JArr [JObj [("start_timestamp", JStr "2025-01-01T00:00:00");
                                      ("grid", JNull)]])] "prices" =
    Some (JArr [JObj [("start_timestamp", JStr "2025-01-01T00:00:00"); ("grid", JNull)]]) /\
  exists e, transform_energy_prices (fun col => Some col) prices_null_grid = Err e.
Proof.
  split; [reflexivity|].
  apply (transform_energy_prices_null_tariff (fun col => Some col) _
           [JObj [("start_timestamp", JStr "2025-01-01T00:00:00"); ("grid", JNull)]]
           [("start_timestamp", JStr "2025-01-01T00:00:00"); ("grid", JNull)] "grid");
    [reflexivity | left; reflexivity | left; reflexivity | reflexivity].
Defined.

End TransformProofs.
